(** * Kismet plugin tracker (plugintracker.h): a shallow embedding

    The header declares the plugin descriptor [PluginRegistrationData], the
    [plugin_tracker] lifecycle coordinator and the
    [ExternalHttpPluginHarness].  The effects of the C++ code (log messages,
    calls into the dynamic loader, the configuration and the IPC layer, and the
    write to [Globalreg::globalreg->fatal_condition]) are threaded through a
    small state monad whose state carries the global flag and the ordered
    trace of calls made to the host's collaborators.

    The header defines the descriptor and the harness in full; of the
    tracker it only declares the member functions.  Their bodies are in
    plugintracker.cc, so the loops of the lifecycle and the HTTP endpoint
    are modelled from the specification, and say so where they are
    defined. *)

From Stdlib Require Import ZArith List String Ascii Bool Lia.
Import ListNotations.
Local Open Scope string_scope.
Local Open Scope Z_scope.
Local Open Scope list_scope.

(** ** Values shared by the whole header *)

(** [void *dlfile]: an address, with the null pointer at 0. *)
Definition handle := Z.
Definition NULL : handle := 0.

(** Severity of a message sent through the [_MSG_FATAL] / [_MSG_ERROR]
    macros. *)
Inductive msgflag := MSGFLAG_ERROR | MSGFLAG_FATAL.

(** Calls that leave the component, in the order they are made.  A message
    keeps its format string and its arguments apart, as the macro call has
    them. *)
Inductive event :=
| ev_msg (flag : msgflag) (fmt : string) (args : list string)
| ev_new_buffer_handler (in_size out_size : Z)
| ev_set_read_buffer_interface
| ev_new_ipc_remote
| ev_fetch_opt_vec (key : string)
| ev_add_path (path : string)
| ev_launch_kis_binary (binary : string) (args : list string)
| ev_dlopen (path : string) (h : handle)
| ev_dlclose (h : handle)
| ev_version_check (h : handle) (api : Z) (ret : Z)
| ev_activate (h : handle) (ret : Z)
| ev_finalize (h : handle) (ret : Z)
| ev_release_harness (binary : string).

(** The part of the process state the header writes to. *)
Record world := mkWorld {
  fatal_condition : Z;          (* Globalreg::globalreg->fatal_condition *)
  trace : list event            (* oldest call first *)
}.

(** ** The effect monad *)

Definition M (A : Type) : Type := world -> A * world.

Definition ret {A} (a : A) : M A := fun w => (a, w).

Definition bind {A B} (m : M A) (k : A -> M B) : M B :=
  fun w => let (a, w') := m w in k a w'.

Notation "x <- m ;; k" := (bind m (fun x => k))
  (at level 61, m at next level, right associativity).
Notation "m ;; k" := (bind m (fun _ => k))
  (at level 61, right associativity).

Definition emit (e : event) : M unit :=
  fun w => (tt, mkWorld (fatal_condition w) (trace w ++ [e])).

Definition set_fatal_condition (v : Z) : M unit :=
  fun w => (tt, mkWorld v (trace w)).

Definition _MSG_FATAL (fmt : string) (args : list string) : M unit :=
  emit (ev_msg MSGFLAG_FATAL fmt args).

Definition _MSG_ERROR (fmt : string) (args : list string) : M unit :=
  emit (ev_msg MSGFLAG_ERROR fmt args).

(** [for (auto x : l) body(x)] *)
Fixpoint for_each {A} (l : list A) (body : A -> M unit) : M unit :=
  match l with
  | [] => ret tt
  | x :: l' => body x ;; for_each l' body
  end.

(** The state a computation leaves, and its answer. *)
Definition exec {A} (m : M A) (w : world) : world := snd (m w).
Definition eval {A} (m : M A) (w : world) : A := fst (m w).

(** ** std::string::find *)

(** [hay.find(needle)]: position of the first occurrence, [None] for
    [std::string::npos]. *)
Fixpoint find_from (needle hay : string) (pos : nat) : option nat :=
  if String.prefix needle hay then Some pos
  else match hay with
       | EmptyString => None
       | String _ rest => find_from needle rest (S pos)
       end.

Definition string_find (hay needle : string) : option nat :=
  find_from needle hay 0%nat.

(** ** The host services the harness calls *)

(** What the configuration file, the path expander and the process launcher
    answer.  None of the three is defined in this header. *)
Record host := mkHost {
  (* kismet_config->fetch_opt_vec(key) *)
  fetch_opt_vec : string -> list string;
  (* kismet_config->expand_log_path(path, logname, type, start, overwrite) *)
  expand_log_path : string -> string -> string -> Z -> Z -> string;
  (* ipc_remote->launch_kis_binary(binary, args), given the paths added *)
  launch_kis_binary : list string -> string -> list string -> Z
}.

(** ** ExternalHttpPluginHarness *)

(** [buffer_handler<ringbuf_v2>]: the two capacities and whether a read
    interface has been attached. *)
Record buffer_handler := mkBuffer {
  read_buffer_size : Z;
  write_buffer_size : Z;
  read_buffer_interface : bool
}.

(** [ipc_remote_v2]: the buffer it was built on and the search paths added
    so far. *)
Record ipc_remote_v2 := mkIpc {
  ipc_buffer : buffer_handler;
  path_vec : list string
}.

(** The members of the harness this header assigns; all three are inherited
    from [kis_external_interface]. *)
Record ExternalHttpPluginHarness := mkHarness {
  external_binary : string;
  ringbuf_handler : option buffer_handler;
  ipc_remote : option ipc_remote_v2
}.

Definition add_path (p : string) (ipc : ipc_remote_v2) : ipc_remote_v2 :=
  mkIpc (ipc_buffer ipc) (path_vec ipc ++ [p]).

(** The loop [for (auto p : bin_paths) ipc_remote->add_path(expand_log_path(p, "", "", 0, 1))]. *)
Fixpoint add_paths (hst : host) (bin_paths : list string) (ipc : ipc_remote_v2)
  : M ipc_remote_v2 :=
  match bin_paths with
  | [] => ret ipc
  | p :: rest =>
      let e := expand_log_path hst p EmptyString EmptyString 0 1 in
      emit (ev_add_path e) ;;
      add_paths hst rest (add_path e ipc)
  end.

(** The constructor (lines 313-349).  [base] is the object as the base-class
    constructor [kis_external_http_interface()] leaves it. *)
Definition ExternalHttpPluginHarness_new (hst : host)
    (base : ExternalHttpPluginHarness) (plugin_name binary : string)
  : M ExternalHttpPluginHarness :=
  match string_find binary "/" with
  | Some _ =>
      _MSG_FATAL "Invalid plugin binary {}; binary must not contain a path." [binary] ;;
      set_fatal_condition 1 ;;
      ret base
  | None =>
      let external_binary' := binary in
      emit (ev_new_buffer_handler (1024 * 1024) (1024 * 1024)) ;;
      emit ev_set_read_buffer_interface ;;
      let rb := mkBuffer (1024 * 1024) (1024 * 1024) true in
      emit ev_new_ipc_remote ;;
      let ipc := mkIpc rb [] in
      emit (ev_fetch_opt_vec "helper_binary_path") ;;
      let bin_paths := fetch_opt_vec hst "helper_binary_path" in
      bin_paths <-
        (if (Z.of_nat (List.length bin_paths) =? 0)
         then
           _MSG_ERROR "No 'helper_binary_path' found in kismet.conf; make sure your config files are up to date.  Using the default binary path where Kismet was installed, instead." [] ;;
           ret (bin_paths ++ ["%B"])
         else ret bin_paths) ;;
      ipc <- add_paths hst bin_paths ipc ;;
      emit (ev_launch_kis_binary external_binary' []) ;;
      let r := launch_kis_binary hst (path_vec ipc) external_binary' [] in
      let this := mkHarness external_binary' (Some rb) (Some ipc) in
      if r <? 0
      then
        _MSG_ERROR "{} failed to launch helper binary '{}'" [plugin_name; binary] ;;
        ret this
      else ret this
  end.

(** ** PluginRegistrationData *)

(** [tracker_element_map], as far as [reserve_fields] reads it: the string
    fields by registered name.  The class itself lives in trackedelement.h. *)
Definition tracker_element_map := list (string * string).

Fixpoint map_find (name : string) (e : tracker_element_map) : option string :=
  match e with
  | [] => None
  | (k, v) :: e' => if (k =? name)%string then Some v else map_find name e'
  end.

(** The descriptor: the nine proxied string fields, the module handle and
    the harness (lines 205-220, in declaration order). *)
Record PluginRegistrationData := mkPlugin {
  tracker_id : option Z;        (* argument of tracker_component(in_id) *)
  plugin_name : string;
  plugin_author : string;
  plugin_description : string;
  plugin_version : string;
  plugin_so : string;
  plugin_http_external : string;
  plugin_dirname : string;
  plugin_path : string;
  plugin_js : string;
  dlfile : handle;
  external_http : option ExternalHttpPluginHarness
}.

(** [register_fields] (lines 188-203): registered name and bound member, in
    registration order. *)
Definition register_fields : list (string * (PluginRegistrationData -> string)) :=
  [ ("kismet.plugin.name", plugin_name);
    ("kismet.plugin.description", plugin_description);
    ("kismet.plugin.author", plugin_author);
    ("kismet.plugin.version", plugin_version);
    ("kismet.plugin.shared_object", plugin_so);
    ("kismet.plugin.http_helper", plugin_http_external);
    ("kismet.plugin.dirname", plugin_dirname);
    ("kismet.plugin.path", plugin_path);
    ("kismet.plugin.jsmodule", plugin_js) ].

(** [reserve_fields(e)]: a field is adopted from [e] when [e] is non-null and
    carries it, and is created empty otherwise. *)
Definition reserve_field (e : option tracker_element_map) (name : string) : string :=
  match e with
  | None => EmptyString
  | Some m => match map_find name m with Some v => v | None => EmptyString end
  end.

Definition construct (id : option Z) (e : option tracker_element_map)
  : PluginRegistrationData :=
  mkPlugin id
    (reserve_field e "kismet.plugin.name")
    (reserve_field e "kismet.plugin.author")
    (reserve_field e "kismet.plugin.description")
    (reserve_field e "kismet.plugin.version")
    (reserve_field e "kismet.plugin.shared_object")
    (reserve_field e "kismet.plugin.http_helper")
    (reserve_field e "kismet.plugin.dirname")
    (reserve_field e "kismet.plugin.path")
    (reserve_field e "kismet.plugin.jsmodule")
    NULL       (* dlfile = NULL *)
    None.      (* external_http: a default-constructed shared_ptr *)

(** The three constructors (lines 120-142). *)
Definition PluginRegistrationData_new : PluginRegistrationData :=
  construct None None.

Definition PluginRegistrationData_new_id (in_id : Z) : PluginRegistrationData :=
  construct (Some in_id) None.

Definition PluginRegistrationData_new_id_map (in_id : Z)
    (e : option tracker_element_map) : PluginRegistrationData :=
  construct (Some in_id) e.

(** [clone_type()] and [clone_type(int)] (lines 153-163): a new object from
    the matching constructor; nothing is read from [this]. *)
Definition clone_type (this : PluginRegistrationData) : PluginRegistrationData :=
  PluginRegistrationData_new.

Definition clone_type_id (this : PluginRegistrationData) (in_id : Z)
  : PluginRegistrationData :=
  PluginRegistrationData_new_id in_id.

(** Mutators: the setters the [__Proxy] lines generate, and
    [set_plugin_dlfile] (line 177). *)
Inductive setter :=
| set_plugin_name (s : string)
| set_plugin_description (s : string)
| set_plugin_author (s : string)
| set_plugin_version (s : string)
| set_plugin_so (s : string)
| set_plugin_dirname (s : string)
| set_plugin_path (s : string)
| set_plugin_js (s : string)
| set_plugin_http_external (s : string)
| set_plugin_dlfile (in_dlfile : handle).

Definition apply_setter (op : setter) (d : PluginRegistrationData)
  : PluginRegistrationData :=
  let '(mkPlugin id nm au de ve so he dn pa js dl eh) := d in
  match op with
  | set_plugin_name s => mkPlugin id s au de ve so he dn pa js dl eh
  | set_plugin_description s => mkPlugin id nm au s ve so he dn pa js dl eh
  | set_plugin_author s => mkPlugin id nm s de ve so he dn pa js dl eh
  | set_plugin_version s => mkPlugin id nm au de s so he dn pa js dl eh
  | set_plugin_so s => mkPlugin id nm au de ve s he dn pa js dl eh
  | set_plugin_dirname s => mkPlugin id nm au de ve so he s pa js dl eh
  | set_plugin_path s => mkPlugin id nm au de ve so he dn s js dl eh
  | set_plugin_js s => mkPlugin id nm au de ve so he dn pa s dl eh
  | set_plugin_http_external s => mkPlugin id nm au de ve so s dn pa js dl eh
  | set_plugin_dlfile h => mkPlugin id nm au de ve so he dn pa js h eh
  end.

Definition apply_setters (ops : list setter) (d : PluginRegistrationData)
  : PluginRegistrationData :=
  fold_left (fun acc op => apply_setter op acc) ops d.

Definition is_set_dlfile (op : setter) : bool :=
  match op with set_plugin_dlfile _ => true | _ => false end.

Definition get_plugin_dlfile (d : PluginRegistrationData) : handle := dlfile d.

Definition with_external_http (eh : option ExternalHttpPluginHarness)
    (d : PluginRegistrationData) : PluginRegistrationData :=
  let '(mkPlugin id nm au de ve so he dn pa js dl _) := d in
  mkPlugin id nm au de ve so he dn pa js dl eh.

(** [d] owns [h]: it holds it, and it is a module handle at all. *)
Definition owns (h : handle) (d : PluginRegistrationData) : bool :=
  negb (h =? NULL) && (dlfile d =? h).

(** The destructor (lines 144-147).  Its body runs first; the members are
    destroyed after it, last declared first, so the [external_http] reference
    (line 220) is dropped after the body has returned.  The string members
    that follow own no resource the header names. *)
Definition PluginRegistrationData_delete (d : PluginRegistrationData) : M unit :=
  (if negb (dlfile d =? NULL) then emit (ev_dlclose (dlfile d)) else ret tt) ;;
  match external_http d with
  | Some hn => emit (ev_release_harness (external_binary hn))
  | None => ret tt
  end.

(** ** The native-module ABI *)

Definition KIS_PLUGINTRACKER_VERSION : Z := 1.

(** [struct plugin_server_info] (lines 232-246). *)
Record plugin_server_info := mkServerInfo {
  plugin_api_version : Z;
  kismet_major : string;
  kismet_minor : string;
  kismet_tiny : string
}.

(** What the dynamic loader and the three C entry points of a module
    answer.  A module is known to the host by the handle [dlopen] gave. *)
Record loader := mkLoader {
  dlopen : string -> handle;
  kis_plugin_version_check : handle -> plugin_server_info -> Z;
  kis_plugin_activate : handle -> Z;
  (* [None]: the module exports no kis_plugin_finalize *)
  kis_plugin_finalize : handle -> option Z
}.

(** ** plugin_tracker *)

(** The two containers of the tracker (lines 303-306). *)
Record plugin_tracker := mkTracker {
  plugin_registry_vec : list PluginRegistrationData;
  plugin_preload : list PluginRegistrationData
}.

(** Modelled from the spec: the Server Info handed to a version check,
    "fresh" and "populated with the current API version" (section 4.2, step
    2); the structure itself is declared in the header. *)
Definition fresh_server_info : plugin_server_info :=
  mkServerInfo KIS_PLUGINTRACKER_VERSION EmptyString EmptyString EmptyString.

(** Modelled from the spec: where step 1 of section 4.2 opens the module,
    "path/shared_object". *)
Definition so_file (x : PluginRegistrationData) : string :=
  (plugin_path x ++ "/" ++ plugin_so x)%string.

Definition has_so (x : PluginRegistrationData) : bool :=
  negb (plugin_so x =? EmptyString)%string.

Definition harness_only (x : PluginRegistrationData) : bool :=
  negb (has_so x) && negb (plugin_http_external x =? EmptyString)%string.

(** Modelled from the spec: one turn of the loop of
    [plugin_tracker::ActivatePlugins], whose body is in plugintracker.cc;
    section 4.2, steps 1 to 3.  The answer is the promoted descriptor, or
    [None] for a dropped one.  A descriptor without a shared object goes to
    the registry without a handle; that includes the manifest-only plugin the
    header allows (line 35). *)
Definition activate_one (ld : loader) (x : PluginRegistrationData)
  : M (option PluginRegistrationData) :=
  if has_so x then
    let h := dlopen ld (so_file x) in
    emit (ev_dlopen (so_file x) h) ;;
    if h =? NULL then
      _MSG_ERROR "module-open failure: {}" [plugin_name x] ;;
      ret None
    else
      let r := kis_plugin_version_check ld h fresh_server_info in
      emit (ev_version_check h (plugin_api_version fresh_server_info) r) ;;
      if r <? 0 then
        _MSG_ERROR "version-check rejection: {}" [plugin_name x] ;;
        emit (ev_dlclose h) ;;
        ret None
      else
        let a := kis_plugin_activate ld h in
        emit (ev_activate h a) ;;
        if a <? 0 then
          _MSG_ERROR "activation rejection: {}" [plugin_name x] ;;
          emit (ev_dlclose h) ;;
          ret None
        else ret (Some (apply_setter (set_plugin_dlfile h) x))
  else ret (Some x).

(** The loop over the preload list: the promoted descriptors and the dropped
    ones, each in discovery order. *)
Fixpoint activate_all (ld : loader) (l : list PluginRegistrationData)
  : M (list PluginRegistrationData * list PluginRegistrationData) :=
  match l with
  | [] => ret ([], [])
  | x :: rest =>
      o <- activate_one ld x ;;
      pr <- activate_all ld rest ;;
      ret (match o with
           | Some x' => (x' :: fst pr, snd pr)
           | None => (fst pr, x :: snd pr)
           end)
  end.

(** Modelled from the spec: [plugin_tracker::ActivatePlugins] (declared at
    line 278, defined in plugintracker.cc).  It drains the preload list:
    the promoted descriptors are appended to the registry, and the dropped
    ones lose their last owner when the list is emptied, which runs their
    destructor. *)
Definition ActivatePlugins (ld : loader) (t : plugin_tracker) : M plugin_tracker :=
  pr <- activate_all ld (plugin_preload t) ;;
  for_each (snd pr) PluginRegistrationData_delete ;;
  ret (mkTracker (plugin_registry_vec t ++ fst pr) []).

(** Modelled from the spec: [PluginRegistrationData::activate_external_http]
    (declared at line 185) as section 4.3 uses it: a harness-only descriptor
    gets its harness, built by the constructor of this header from the plugin
    name and the helper file name. *)
Definition activate_external_http (hst : host) (base : ExternalHttpPluginHarness)
    (x : PluginRegistrationData) : M PluginRegistrationData :=
  if harness_only x then
    hn <- ExternalHttpPluginHarness_new hst base (plugin_name x) (plugin_http_external x) ;;
    ret (with_external_http (Some hn) x)
  else ret x.

(** Modelled from the spec: one turn of [plugin_tracker::FinalizePlugins]
    (section 4.3): the optional finalize entry point of a loaded module is
    called, a negative answer is logged and nothing else; then the harness
    of a harness-only descriptor is built. *)
Definition finalize_one (ld : loader) (hst : host) (base : ExternalHttpPluginHarness)
    (x : PluginRegistrationData) : M PluginRegistrationData :=
  (if negb (dlfile x =? NULL) then
     match kis_plugin_finalize ld (dlfile x) with
     | Some r =>
         emit (ev_finalize (dlfile x) r) ;;
         if r <? 0 then _MSG_ERROR "finalize rejection: {}" [plugin_name x]
         else ret tt
     | None => ret tt
     end
   else ret tt) ;;
  activate_external_http hst base x.

Fixpoint finalize_all (ld : loader) (hst : host) (base : ExternalHttpPluginHarness)
    (l : list PluginRegistrationData) : M (list PluginRegistrationData) :=
  match l with
  | [] => ret []
  | x :: rest =>
      x' <- finalize_one ld hst base x ;;
      rest' <- finalize_all ld hst base rest ;;
      ret (x' :: rest')
  end.

(** Modelled from the spec: [plugin_tracker::FinalizePlugins] (declared at
    line 281, defined in plugintracker.cc), the second pass over the active
    registry. *)
Definition FinalizePlugins (ld : loader) (hst : host)
    (base : ExternalHttpPluginHarness) (t : plugin_tracker) : M plugin_tracker :=
  reg <- finalize_all ld hst base (plugin_registry_vec t) ;;
  ret (mkTracker reg (plugin_preload t)).

(** Modelled from the spec: [plugin_tracker::ShutdownPlugins] (declared at
    line 284, defined in plugintracker.cc): every active descriptor is
    released and the registry is cleared.  A descriptor gives its module and
    its harness back through its destructor, the only code of the header that
    does. *)
Definition ShutdownPlugins (t : plugin_tracker) : M plugin_tracker :=
  for_each (plugin_registry_vec t) PluginRegistrationData_delete ;;
  ret (mkTracker [] (plugin_preload t)).

(** The tracker as the scan leaves it: nothing active yet. *)
Definition scanned (preload : list PluginRegistrationData) : plugin_tracker :=
  mkTracker [] preload.

(** The lifecycle the host drives after the scan. *)
Definition lifecycle (ld : loader) (hst : host) (base : ExternalHttpPluginHarness)
    (preload : list PluginRegistrationData) : M plugin_tracker :=
  t1 <- ActivatePlugins ld (scanned preload) ;;
  t2 <- FinalizePlugins ld hst base t1 ;;
  ShutdownPlugins t2.

(** ** The introspection endpoint *)

(** One serialized descriptor: the registered fields by name. *)
Definition record := list (string * string).

Definition serialize (d : PluginRegistrationData) : record :=
  map (fun f => (fst f, snd f d)) register_fields.

(** Modelled from the spec: [plugin_tracker::httpd_verify_path] (declared at
    line 287, defined in plugintracker.cc), section 4.5: one fixed path, the
    method GET, and no other pair. *)
Definition httpd_verify_path (introspection_path path method : string) : bool :=
  (method =? "GET")%string && (path =? introspection_path)%string.

(** Modelled from the spec: [plugin_tracker::httpd_create_stream_response]
    (declared at line 289, defined in plugintracker.cc): the active registry
    as a list of records. *)
Definition httpd_create_stream_response (t : plugin_tracker) : list record :=
  map serialize (plugin_registry_vec t).

(** Modelled from the spec: a request as the HTTP layer routes it (section
    4.5): the predicate first, the response only for an accepted pair. *)
Definition httpd_request (introspection_path : string) (t : plugin_tracker)
    (path method : string) : option (list record) :=
  if httpd_verify_path introspection_path path method
  then Some (httpd_create_stream_response t)
  else None.

(** ** Reading a trace *)

(** The events [m] appends when it runs from [w]. *)
Definition events_of {A} (m : M A) (w : world) : list event :=
  skipn (List.length (trace w)) (trace (exec m w)).

Definition is_dlclose (h : handle) (e : event) : bool :=
  match e with ev_dlclose h' => h' =? h | _ => false end.

Definition is_dlopen (h : handle) (e : event) : bool :=
  match e with ev_dlopen _ h' => h' =? h | _ => false end.

Definition is_launch (e : event) : bool :=
  match e with ev_launch_kis_binary _ _ => true | _ => false end.

Definition is_add_path (e : event) : bool :=
  match e with ev_add_path _ => true | _ => false end.

Definition is_release_harness (e : event) : bool :=
  match e with ev_release_harness _ => true | _ => false end.

(** Search-path resolution and process spawn: reading the path list,
    adding a path, launching. *)
Definition is_resolution_or_spawn (e : event) : bool :=
  match e with
  | ev_fetch_opt_vec _ | ev_add_path _ | ev_launch_kis_binary _ _ => true
  | _ => false
  end.

(** Anything the constructor does after the check of the binary name. *)
Definition is_helper_setup (e : event) : bool :=
  match e with
  | ev_new_buffer_handler _ _ | ev_set_read_buffer_interface
  | ev_new_ipc_remote | ev_fetch_opt_vec _ | ev_add_path _
  | ev_launch_kis_binary _ _ => true
  | _ => false
  end.

Definition count (p : event -> bool) (tr : list event) : nat :=
  List.length (filter p tr).

(** The name has a '/' in it, read character by character. *)
Fixpoint contains_slash (s : string) : bool :=
  match s with
  | EmptyString => false
  | String c rest => (c =? "/")%char || contains_slash rest
  end.

(** The search paths the constructor hands to the launcher. *)
Definition search_paths (hst : host) : list string :=
  let bin_paths := fetch_opt_vec hst "helper_binary_path" in
  map (fun p => expand_log_path hst p EmptyString EmptyString 0 1)
      (match bin_paths with [] => ["%B"] | _ => bin_paths end).

(** ** Statements about a run *)

(** [m] started in [w] answers [a], leaves the flag at [fc] and appends
    [evs]. *)
Definition runs {A} (m : M A) (w : world) (a : A) (fc : Z) (evs : list event) : Prop :=
  m w = (a, mkWorld fc (trace w ++ evs)).

(** The messages and calls of the harness constructor. *)
Definition fatal_message (binary : string) : event :=
  ev_msg MSGFLAG_FATAL
    "Invalid plugin binary {}; binary must not contain a path." [binary].

Definition no_path_message : event :=
  ev_msg MSGFLAG_ERROR
    "No 'helper_binary_path' found in kismet.conf; make sure your config files are up to date.  Using the default binary path where Kismet was installed, instead." [].

Definition launch_failed_message (plugin_name binary : string) : event :=
  ev_msg MSGFLAG_ERROR "{} failed to launch helper binary '{}'"
    [plugin_name; binary].

Definition ipc_buffer_1M : buffer_handler :=
  mkBuffer (1024 * 1024) (1024 * 1024) true.

(** What the launcher answers to the constructor. *)
Definition launch_result (hst : host) (binary : string) : Z :=
  launch_kis_binary hst (search_paths hst) binary [].

(** The calls of an accepted construction, in order. *)
Definition accepted_events (hst : host) (plugin_name binary : string) : list event :=
  [ ev_new_buffer_handler (1024 * 1024) (1024 * 1024);
    ev_set_read_buffer_interface;
    ev_new_ipc_remote;
    ev_fetch_opt_vec "helper_binary_path" ]
  ++ (match fetch_opt_vec hst "helper_binary_path" with
      | [] => [no_path_message]
      | _ => []
      end)
  ++ map ev_add_path (search_paths hst)
  ++ [ev_launch_kis_binary binary []]
  ++ (if launch_result hst binary <? 0
      then [launch_failed_message plugin_name binary] else []).

Definition is_fatal_msg (e : event) : bool :=
  match e with ev_msg MSGFLAG_FATAL _ _ => true | _ => false end.

(** The events of one destructor call. *)
Definition delete_events (d : PluginRegistrationData) : list event :=
  (if negb (dlfile d =? NULL) then [ev_dlclose (dlfile d)] else [])
  ++ (match external_http d with
      | Some hn => [ev_release_harness (external_binary hn)]
      | None => []
      end).

Definition is_any_dlclose (e : event) : bool :=
  match e with ev_dlclose _ => true | _ => false end.


(** No module is closed after a harness has been released. *)
Fixpoint handle_before_harness (tr : list event) : bool :=
  match tr with
  | [] => true
  | e :: rest =>
      (if is_release_harness e then forallb (fun e' => negb (is_any_dlclose e')) rest
       else true)
      && handle_before_harness rest
  end.

(** The descriptors of [l] that own [h]. *)
Definition owners (h : handle) (l : list PluginRegistrationData)
  : list PluginRegistrationData :=
  filter (owns h) l.

(** ** Statements about the lifecycle *)

Definition empty_world : world := mkWorld 0 [].

(** What one turn of the activation loop answers and calls; neither depends
    on the state it starts from. *)
Definition promote (ld : loader) (x : PluginRegistrationData)
  : option PluginRegistrationData :=
  eval (activate_one ld x) empty_world.

Definition activate_events (ld : loader) (x : PluginRegistrationData) : list event :=
  events_of (activate_one ld x) empty_world.

Definition promoted (ld : loader) (l : list PluginRegistrationData)
  : list PluginRegistrationData :=
  flat_map (fun x => match promote ld x with Some x' => [x'] | None => [] end) l.

Definition dropped (ld : loader) (l : list PluginRegistrationData)
  : list PluginRegistrationData :=
  filter (fun x => match promote ld x with Some _ => false | None => true end) l.

(** The same for one turn of the finalize loop. *)
Definition finalized (ld : loader) (hst : host) (base : ExternalHttpPluginHarness)
    (x : PluginRegistrationData) : PluginRegistrationData :=
  eval (finalize_one ld hst base x) empty_world.

Definition finalize_events (ld : loader) (hst : host)
    (base : ExternalHttpPluginHarness) (x : PluginRegistrationData) : list event :=
  events_of (finalize_one ld hst base x) empty_world.

(** Every descriptor of the list has a null module handle, as the
    constructors leave it. *)
Definition null_handles (l : list PluginRegistrationData) : bool :=
  forallb (fun d => dlfile d =? NULL) l.

(** Activation opens module [h] for [x]. *)
Definition opens (ld : loader) (h : handle) (x : PluginRegistrationData) : bool :=
  has_so x && negb (h =? NULL) && (dlopen ld (so_file x) =? h).

(** The version check of the module opened for [x] answers a negative
    value. *)
Definition version_rejected (ld : loader) (x : PluginRegistrationData) : bool :=
  has_so x && negb (dlopen ld (so_file x) =? NULL)
  && (kis_plugin_version_check ld (dlopen ld (so_file x)) fresh_server_info <? 0).

(** Module [h] passes the version check and the activation. *)
Definition accepted (ld : loader) (h : handle) : bool :=
  negb (kis_plugin_version_check ld h fresh_server_info <? 0)
  && negb (kis_plugin_activate ld h <? 0).

(** A descriptor without the resources it owns: what the manifest said. *)
Definition plugin_identity (d : PluginRegistrationData) : PluginRegistrationData :=
  with_external_http None (apply_setter (set_plugin_dlfile NULL) d).

Definition is_finalize (e : event) : bool :=
  match e with ev_finalize _ _ => true | _ => false end.

(** A computation whose answer and calls do not depend on the state it
    starts from, and which only appends to the trace. *)
Definition regular {A} (m : M A) : Prop :=
  forall w, exists fc,
    runs m w (eval m empty_world) fc (events_of m empty_world).

(** The kinds of call the harness constructor makes. *)
Definition is_harness_event (e : event) : bool :=
  match e with
  | ev_msg _ _ _ | ev_new_buffer_handler _ _ | ev_set_read_buffer_interface
  | ev_new_ipc_remote | ev_fetch_opt_vec _ | ev_add_path _
  | ev_launch_kis_binary _ _ => true
  | _ => false
  end.

Definition indicator (b : bool) : nat := if b then 1%nat else 0%nat.

(** ** A sample installation

    Three plugin directories: one whose module loads and activates, one
    whose module refuses the version check, and one that only ships a
    helper binary.  The configuration has no helper path list and the helper
    fails to start. *)

Definition sample_base : ExternalHttpPluginHarness :=
  mkHarness EmptyString None None.

Definition sample_host : host :=
  mkHost (fun _ => [])
         (fun p _ _ _ _ => if (p =? "%B")%string then "/usr/local/bin" else p)
         (fun _ _ _ => -1).

Definition sample_loader : loader :=
  mkLoader
    (fun p => if (p =? "/plug/good/good.so")%string then 11
              else if (p =? "/plug/bad/bad.so")%string then 12
              else NULL)
    (fun h _ => if h =? 12 then -1 else 0)
    (fun _ => 0)
    (fun h => if h =? 11 then Some (-1) else None).

Definition sample_good : PluginRegistrationData :=
  apply_setters
    [set_plugin_name "good"; set_plugin_path "/plug/good";
     set_plugin_so "good.so"]
    PluginRegistrationData_new.

Definition sample_bad : PluginRegistrationData :=
  apply_setters
    [set_plugin_name "bad"; set_plugin_path "/plug/bad";
     set_plugin_so "bad.so"]
    PluginRegistrationData_new.

Definition sample_helper : PluginRegistrationData :=
  apply_setters
    [set_plugin_name "helper"; set_plugin_path "/plug/helper";
     set_plugin_http_external "kismet_helper"]
    PluginRegistrationData_new.

Definition sample_preload : list PluginRegistrationData :=
  [sample_good; sample_bad; sample_helper].



(** ** Further statements about the header *)

(** The expansion the constructor applies to every search path. *)
Definition expand_helper_path (hst : host) (p : string) : string :=
  expand_log_path hst p EmptyString EmptyString 0 1.

(** The handle of the latest [set_plugin_dlfile] of a sequence of setter
    calls, [init] when there is none. *)
Definition last_set_dlfile (ops : list setter) (init : handle) : handle :=
  match find is_set_dlfile (rev ops) with
  | Some (set_plugin_dlfile h) => h
  | _ => init
  end.

Definition is_launch_failed (e : event) : bool :=
  match e with
  | ev_msg MSGFLAG_ERROR fmt _ =>
      (fmt =? "{} failed to launch helper binary '{}'")%string
  | _ => false
  end.

Definition has_harness (d : PluginRegistrationData) : bool :=
  match external_http d with Some _ => true | None => false end.

(** The paths named by the [ev_add_path] calls of a trace, in order. *)
Fixpoint added_paths (tr : list event) : list string :=
  match tr with
  | [] => []
  | ev_add_path p :: rest => p :: added_paths rest
  | _ :: rest => added_paths rest
  end.

(** The nine string members of a descriptor, in declaration order. *)
Definition string_members (d : PluginRegistrationData) : list string :=
  [ plugin_name d; plugin_author d; plugin_description d; plugin_version d;
    plugin_so d; plugin_http_external d; plugin_dirname d; plugin_path d;
    plugin_js d ].

(** A second configuration: two search paths, and a helper that starts. *)
Definition sample_host_configured : host :=
  mkHost (fun _ => ["/opt/kismet/bin"; "%B/helpers"])
         (fun p _ _ _ _ => if (p =? "%B/helpers")%string
                           then "/usr/local/bin/helpers" else p)
         (fun _ _ _ => 0).

(** ** The scan and the start of the host *)

(** Modelled from the spec: the manifest of a plugin package as the parser
    hands it over, with the keys of section 6 (name, description, author,
    version, shared-object filename, external-helper filename,
    javascript-module filename).  The parser is not part of the header. *)
Record manifest := mkManifest {
  m_name : string;
  m_description : string;
  m_author : string;
  m_version : string;
  m_shared_object : string;
  m_http_helper : string;
  m_js_module : string
}.

(** Modelled from the spec: what a directory scan finds in a subdirectory
    (section 4.1): no manifest, a manifest the parser refuses, or a parsed
    one. *)
Inductive manifest_file :=
| manifest_absent
| manifest_malformed
| manifest_parsed (m : manifest).

Record plugin_dir := mkPluginDir {
  dir_name : string;            (* name of the subdirectory *)
  dir_path : string;            (* where the package is installed *)
  dir_manifest : manifest_file
}.

(** Modelled from the spec: the descriptor a scan builds from a manifest
    (section 3, "created during scan (metadata only)"): a new descriptor
    whose string fields carry the manifest values, the directory name and
    the install path. *)
Definition descriptor_of (pd : plugin_dir) (m : manifest) : PluginRegistrationData :=
  apply_setters
    [ set_plugin_name (m_name m);
      set_plugin_description (m_description m);
      set_plugin_author (m_author m);
      set_plugin_version (m_version m);
      set_plugin_so (m_shared_object m);
      set_plugin_http_external (m_http_helper m);
      set_plugin_js (m_js_module m);
      set_plugin_dirname (dir_name pd);
      set_plugin_path (dir_path pd) ]
    PluginRegistrationData_new.

(** Modelled from the spec: [plugin_tracker::ScanDirectory] (declared at
    line 300, defined in plugintracker.cc), section 4.1: without a manifest
    the directory is skipped silently, a malformed manifest is logged and
    skipped, a parsed one appends a descriptor to the preload list. *)
Definition ScanDirectory (pd : plugin_dir) (t : plugin_tracker) : M plugin_tracker :=
  match dir_manifest pd with
  | manifest_absent => ret t
  | manifest_malformed =>
      _MSG_ERROR "malformed manifest: {}" [dir_path pd] ;;
      ret t
  | manifest_parsed m =>
      ret (mkTracker (plugin_registry_vec t)
                     (plugin_preload t ++ [descriptor_of pd m]))
  end.

(** Modelled from the spec: [plugin_tracker::ScanPlugins] (declared at line
    275, defined in plugintracker.cc): the directory scan of every
    subdirectory, in traversal order. *)
Fixpoint ScanPlugins (dirs : list plugin_dir) (t : plugin_tracker) : M plugin_tracker :=
  match dirs with
  | [] => ret t
  | pd :: rest => t' <- ScanDirectory pd t ;; ScanPlugins rest t'
  end.

(** The stages the host runs before it serves requests. *)
Definition startup (ld : loader) (hst : host) (base : ExternalHttpPluginHarness)
    (dirs : list plugin_dir) : M plugin_tracker :=
  t0 <- ScanPlugins dirs (mkTracker [] []) ;;
  t1 <- ActivatePlugins ld t0 ;;
  FinalizePlugins ld hst base t1.

(** The directories that carry a parsed manifest, with it. *)
Definition scanned_manifests (dirs : list plugin_dir) : list (plugin_dir * manifest) :=
  flat_map (fun pd => match dir_manifest pd with
                      | manifest_parsed m => [(pd, m)]
                      | _ => []
                      end) dirs.

(** The record a manifest should show up as: every registered field with
    the value the manifest, or the directory, gave. *)
Definition manifest_record (pm : plugin_dir * manifest) : record :=
  let (pd, m) := pm in
  [ ("kismet.plugin.name", m_name m);
    ("kismet.plugin.description", m_description m);
    ("kismet.plugin.author", m_author m);
    ("kismet.plugin.version", m_version m);
    ("kismet.plugin.shared_object", m_shared_object m);
    ("kismet.plugin.http_helper", m_http_helper m);
    ("kismet.plugin.dirname", dir_name pd);
    ("kismet.plugin.path", dir_path pd);
    ("kismet.plugin.jsmodule", m_js_module m) ].

(** The record of a descriptor, field by field. *)
Definition descriptor_record (d : PluginRegistrationData) : record :=
  [ ("kismet.plugin.name", plugin_name d);
    ("kismet.plugin.description", plugin_description d);
    ("kismet.plugin.author", plugin_author d);
    ("kismet.plugin.version", plugin_version d);
    ("kismet.plugin.shared_object", plugin_so d);
    ("kismet.plugin.http_helper", plugin_http_external d);
    ("kismet.plugin.dirname", plugin_dirname d);
    ("kismet.plugin.path", plugin_path d);
    ("kismet.plugin.jsmodule", plugin_js d) ].

(** The package gets through activation: it ships no shared object, or its
    module opens, passes the version check and activates. *)
Definition activates (ld : loader) (pm : plugin_dir * manifest) : bool :=
  let (pd, m) := pm in
  if (m_shared_object m =? EmptyString)%string then true
  else
    let h := dlopen ld (dir_path pd ++ "/" ++ m_shared_object m)%string in
    negb (h =? NULL)
    && negb (kis_plugin_version_check ld h fresh_server_info <? 0)
    && negb (kis_plugin_activate ld h <? 0).

(** ** Further statements about the lifecycle *)


Definition is_any_dlopen (e : event) : bool :=
  match e with ev_dlopen _ _ => true | _ => false end.

Definition is_open_or_close (e : event) : bool :=
  is_any_dlopen e || is_any_dlclose e.

(** The finalize call a descriptor is owed: one, when its module is loaded
    and exports the entry point. *)
Definition finalize_call (ld : loader) (d : PluginRegistrationData) : list event :=
  if negb (dlfile d =? NULL)
  then match kis_plugin_finalize ld (dlfile d) with
       | Some r => [ev_finalize (dlfile d) r]
       | None => []
       end
  else [].

(** The helper name of a harness-only descriptor has a '/' in it. *)
Definition bad_helper (d : PluginRegistrationData) : bool :=
  harness_only d && contains_slash (plugin_http_external d).

(** The sample installation as directories on disk: the three packages,
    a directory without a manifest and one with a broken manifest. *)
Definition sample_dirs : list plugin_dir :=
  [ mkPluginDir "good" "/plug/good"
      (manifest_parsed
         (mkManifest "good" "a native plugin" "kismet" "1.0"
                     "good.so" EmptyString "good_module"));
    mkPluginDir "empty" "/plug/empty" manifest_absent;
    mkPluginDir "bad" "/plug/bad"
      (manifest_parsed
         (mkManifest "bad" "an outdated plugin" "kismet" "0.1"
                     "bad.so" EmptyString EmptyString));
    mkPluginDir "broken" "/plug/broken" manifest_malformed;
    mkPluginDir "helper" "/plug/helper"
      (manifest_parsed
         (mkManifest "helper" "a helper process" "kismet" "2.0"
                     EmptyString "kismet_helper" EmptyString)) ].

(** Two descriptors that were handed the same module handle. *)
Definition sample_owner_a : PluginRegistrationData :=
  apply_setters [set_plugin_name "a"; set_plugin_dlfile 5]
                PluginRegistrationData_new.

Definition sample_owner_b : PluginRegistrationData :=
  apply_setters [set_plugin_name "b"; set_plugin_dlfile 5]
                (PluginRegistrationData_new_id 1).

(** A descriptor as the public interface builds it: a constructor, then
    setter calls. *)
Definition built_descriptor
    (c : option Z * option tracker_element_map * list setter)
  : PluginRegistrationData :=
  let '(id, e, ops) := c in apply_setters ops (construct id e).

(** The latest [set_plugin_dlfile] of the build gave it [h]. *)
Definition given_handle (h : handle)
    (c : option Z * option tracker_element_map * list setter) : bool :=
  negb (h =? NULL) && (last_set_dlfile (snd c) NULL =? h).

(** The messages of a scan: one per malformed manifest. *)
Definition scan_events (dirs : list plugin_dir) : list event :=
  flat_map (fun pd => match dir_manifest pd with
                      | manifest_malformed =>
                          [ev_msg MSGFLAG_ERROR "malformed manifest: {}" [dir_path pd]]
                      | _ => []
                      end) dirs.

(** The preload list a scan of [dirs] builds. *)
Definition scanned_preload (dirs : list plugin_dir) : list PluginRegistrationData :=
  map (fun pm => descriptor_of (fst pm) (snd pm)) (scanned_manifests dirs).


(** * Proofs *)

(** ** Running a computation *)

Lemma runs_ret {A} (a : A) w : runs (ret a) w a (fatal_condition w) [].
Proof. unfold runs, ret. rewrite app_nil_r. now destruct w. Qed.

Lemma runs_emit e w : runs (emit e) w tt (fatal_condition w) [e].
Proof. reflexivity. Qed.

Lemma runs_bind {A B} (m : M A) (k : A -> M B) w a fc evs b fc' evs' :
  runs m w a fc evs ->
  runs (k a) (mkWorld fc (trace w ++ evs)) b fc' evs' ->
  runs (bind m k) w b fc' (evs ++ evs').
Proof.
  unfold runs, bind. intros -> Hk. cbn in Hk. rewrite Hk.
  now rewrite app_assoc.
Qed.

Lemma runs_events {A} (m : M A) w a fc evs :
  runs m w a fc evs -> events_of m w = evs.
Proof.
  unfold runs, events_of, exec. intros ->. cbn.
  rewrite skipn_app, skipn_all, Nat.sub_diag. reflexivity.
Qed.

Lemma runs_eval {A} (m : M A) w a fc evs : runs m w a fc evs -> eval m w = a.
Proof. unfold runs, eval. now intros ->. Qed.

Lemma runs_flag {A} (m : M A) w a fc evs :
  runs m w a fc evs -> fatal_condition (exec m w) = fc.
Proof. unfold runs, exec. now intros ->. Qed.

Lemma count_app p (l1 l2 : list event) :
  count p (l1 ++ l2) = (count p l1 + count p l2)%nat.
Proof. unfold count. now rewrite filter_app, length_app. Qed.

(** ** std::string::find and the '/' test *)

Lemma prefix_slash c rest :
  String.prefix "/" (String c rest) = (c =? "/")%char.
Proof.
  change (String.prefix "/" (String c rest))
    with (if ascii_dec "/" c then String.prefix EmptyString rest else false).
  destruct (ascii_dec "/" c) as [<- | Hne].
  - now destruct rest.
  - symmetry. apply Ascii.eqb_neq. congruence.
Qed.

Lemma find_from_slash s : forall pos,
  find_from "/" s pos = None <-> contains_slash s = false.
Proof.
  induction s as [| c rest IH]; intros pos.
  - cbn. tauto.
  - cbn [find_from contains_slash]. rewrite prefix_slash.
    destruct (c =? "/")%char; cbn.
    + split; discriminate.
    + apply IH.
Qed.

Lemma string_find_slash_some s :
  contains_slash s = true -> exists pos, string_find s "/" = Some pos.
Proof.
  intros Hs. unfold string_find.
  destruct (find_from "/" s 0) as [pos |] eqn:E; [now exists pos |].
  apply find_from_slash in E. congruence.
Qed.

Lemma string_find_slash_none s :
  contains_slash s = false -> string_find s "/" = None.
Proof. intros Hs. now apply find_from_slash. Qed.

(** ** The harness constructor, case by case *)

Lemma harness_rejected hst base plugin_name binary w :
  contains_slash binary = true ->
  runs (ExternalHttpPluginHarness_new hst base plugin_name binary) w
       base 1 [fatal_message binary].
Proof.
  intros Hs. destruct (string_find_slash_some _ Hs) as [pos Hpos].
  unfold runs, ExternalHttpPluginHarness_new. rewrite Hpos. reflexivity.
Qed.

Lemma add_paths_runs hst : forall ps ipc w,
  runs (add_paths hst ps ipc) w
       (mkIpc (ipc_buffer ipc)
              (path_vec ipc ++
               map (fun p => expand_log_path hst p EmptyString EmptyString 0 1) ps))
       (fatal_condition w)
       (map ev_add_path
            (map (fun p => expand_log_path hst p EmptyString EmptyString 0 1) ps)).
Proof.
  induction ps as [| p rest IH]; intros ipc w.
  - cbn [add_paths map]. rewrite app_nil_r.
    destruct ipc. apply runs_ret.
  - cbn [add_paths map].
    set (e := expand_log_path hst p EmptyString EmptyString 0 1).
    apply (runs_bind _ _ w tt (fatal_condition w) [ev_add_path e]);
      [apply runs_emit |].
    specialize (IH (add_path e ipc)
                   (mkWorld (fatal_condition w) (trace w ++ [ev_add_path e]))).
    cbn [add_path ipc_buffer path_vec fatal_condition] in IH.
    rewrite <- app_assoc in IH. exact IH.
Qed.

Lemma harness_accepted hst base plugin_name binary w :
  contains_slash binary = false ->
  runs (ExternalHttpPluginHarness_new hst base plugin_name binary) w
       (mkHarness binary (Some ipc_buffer_1M)
                  (Some (mkIpc ipc_buffer_1M (search_paths hst))))
       (fatal_condition w)
       (accepted_events hst plugin_name binary).
Proof.
  intros Hs. apply string_find_slash_none in Hs.
  unfold runs, ExternalHttpPluginHarness_new. rewrite Hs.
  unfold accepted_events, launch_result, search_paths, bind, emit, _MSG_ERROR, ret.
  cbn [fst snd trace fatal_condition].
  destruct (fetch_opt_vec hst "helper_binary_path") as [| p0 ps] eqn:Hf.
  - cbn.
    match goal with |- context [if ?c then _ else _] => destruct c end;
      cbn; repeat rewrite <- app_assoc; reflexivity.
  - replace (Z.of_nat (List.length (p0 :: ps)) =? 0) with false
      by (symmetry; apply Z.eqb_neq; cbn [List.length]; lia).
    set (w1 := mkWorld _ _).
    pose proof (add_paths_runs hst (p0 :: ps) (mkIpc ipc_buffer_1M []) w1) as Ha.
    unfold runs in Ha. cbn [path_vec ipc_buffer app] in Ha.
    fold ipc_buffer_1M. rewrite Ha. cbn [path_vec trace fatal_condition].
    subst w1. cbn [trace fatal_condition].
    match goal with |- context [if ?c then _ else _] => destruct c end;
      unfold bind, _MSG_ERROR, emit, ret;
      cbn [trace fatal_condition app map]; repeat rewrite <- app_assoc;
      cbn [app]; reflexivity.
Qed.

Lemma count_add_paths p (l : list string) :
  (forall s, p (ev_add_path s) = false) ->
  count p (map ev_add_path l) = 0%nat.
Proof.
  intros Hp. induction l as [| s l IH]; [reflexivity |].
  unfold count in *. cbn. now rewrite Hp.
Qed.

Lemma filter_add_paths (l : list string) :
  filter is_add_path (map ev_add_path l) = map ev_add_path l.
Proof. induction l as [| s l IH]; cbn; [| rewrite IH]; reflexivity. Qed.

Lemma accepted_launch_once hst plugin_name binary :
  count is_launch (accepted_events hst plugin_name binary) = 1%nat.
Proof.
  unfold accepted_events. rewrite !count_app.
  rewrite count_add_paths by reflexivity.
  destruct (fetch_opt_vec hst "helper_binary_path");
    destruct (launch_result hst binary <? 0); reflexivity.
Qed.

Lemma accepted_no_fatal hst plugin_name binary :
  count is_fatal_msg (accepted_events hst plugin_name binary) = 0%nat.
Proof.
  unfold accepted_events. rewrite !count_app.
  rewrite count_add_paths by reflexivity.
  destruct (fetch_opt_vec hst "helper_binary_path");
    destruct (launch_result hst binary <? 0); reflexivity.
Qed.

(** ** Claims about the harness constructor *)

(** C1. A helper binary name that contains '/' raises the host-fatal
    condition: the fatal message is logged, [fatal_condition] is set to 1,
    and no call of search-path resolution (reading the path list, adding a
    path) or of process spawn (the launch) is made. *)
Theorem harness_slash_is_fatal hst base plugin_name binary w :
  contains_slash binary = true ->
  let m := ExternalHttpPluginHarness_new hst base plugin_name binary in
  fatal_condition (exec m w) = 1 /\
  In (fatal_message binary) (events_of m w) /\
  count is_resolution_or_spawn (events_of m w) = 0%nat.
Proof.
  intros Hs m. pose proof (harness_rejected hst base plugin_name binary w Hs) as Hr.
  fold m in Hr. rewrite (runs_events _ _ _ _ _ Hr), (runs_flag _ _ _ _ _ Hr).
  repeat split. now left.
Qed.

(** C10. A construction rejected for a '/' in the binary name does nothing
    but log the fatal message and raise the flag: the object is as the
    base-class constructor left it (stored binary name, ring buffer and
    remote-process object untouched), and no buffer is allocated, no
    remote-process object is created and no configuration is read. *)
Theorem harness_rejected_frame hst base plugin_name binary w :
  contains_slash binary = true ->
  let m := ExternalHttpPluginHarness_new hst base plugin_name binary in
  eval m w = base /\
  external_binary (eval m w) = external_binary base /\
  ringbuf_handler (eval m w) = ringbuf_handler base /\
  ipc_remote (eval m w) = ipc_remote base /\
  events_of m w = [fatal_message binary] /\
  count is_helper_setup (events_of m w) = 0%nat.
Proof.
  intros Hs m. pose proof (harness_rejected hst base plugin_name binary w Hs) as Hr.
  fold m in Hr. rewrite (runs_events _ _ _ _ _ Hr), (runs_eval _ _ _ _ _ Hr).
  repeat split.
Qed.

(** C7. When the configuration has no 'helper_binary_path' entry, the
    constructor logs the message about it, takes the install location "%B"
    as the one search path, and goes on to launch the helper; the fatal
    flag is left alone. *)
Theorem harness_default_search_path hst base plugin_name binary w :
  contains_slash binary = false ->
  fetch_opt_vec hst "helper_binary_path" = [] ->
  let m := ExternalHttpPluginHarness_new hst base plugin_name binary in
  let install := expand_log_path hst "%B" EmptyString EmptyString 0 1 in
  In no_path_message (events_of m w) /\
  filter is_add_path (events_of m w) = [ev_add_path install] /\
  ipc_remote (eval m w) = Some (mkIpc ipc_buffer_1M [install]) /\
  In (ev_launch_kis_binary binary []) (events_of m w) /\
  count is_fatal_msg (events_of m w) = 0%nat /\
  fatal_condition (exec m w) = fatal_condition w.
Proof.
  intros Hs Hf m install.
  pose proof (harness_accepted hst base plugin_name binary w Hs) as Hr.
  fold m in Hr.
  rewrite (runs_events _ _ _ _ _ Hr), (runs_eval _ _ _ _ _ Hr),
    (runs_flag _ _ _ _ _ Hr).
  pose proof (accepted_no_fatal hst plugin_name binary) as Hnf.
  unfold accepted_events, search_paths in *. rewrite Hf in *.
  cbn [map app]. fold install.
  repeat split.
  - cbn. tauto.
  - cbn. now destruct (launch_result hst binary <? 0).
  - cbn. tauto.
  - exact Hnf.
Qed.

(** C8. When the launch call answers a negative value, the failure is
    logged with the plugin name and the binary, and that is the last thing
    the constructor does: the launch was called once, nothing follows the
    message, and the fatal flag is left alone. *)
Theorem harness_launch_failure hst base plugin_name binary w :
  contains_slash binary = false ->
  launch_result hst binary < 0 ->
  let m := ExternalHttpPluginHarness_new hst base plugin_name binary in
  (exists before,
      events_of m w =
        before ++ [ev_launch_kis_binary binary [];
                   launch_failed_message plugin_name binary] /\
      count is_launch before = 0%nat) /\
  count is_launch (events_of m w) = 1%nat /\
  count is_fatal_msg (events_of m w) = 0%nat /\
  fatal_condition (exec m w) = fatal_condition w.
Proof.
  intros Hs Hl m.
  pose proof (harness_accepted hst base plugin_name binary w Hs) as Hr.
  fold m in Hr.
  rewrite (runs_events _ _ _ _ _ Hr), (runs_flag _ _ _ _ _ Hr).
  split; [| split; [apply accepted_launch_once | split;
                    [apply accepted_no_fatal | reflexivity]]].
  unfold accepted_events. apply Z.ltb_lt in Hl. rewrite Hl.
  exists ([ ev_new_buffer_handler (1024 * 1024) (1024 * 1024);
            ev_set_read_buffer_interface;
            ev_new_ipc_remote;
            ev_fetch_opt_vec "helper_binary_path" ]
          ++ (match fetch_opt_vec hst "helper_binary_path" with
              | [] => [no_path_message]
              | _ => []
              end)
          ++ map ev_add_path (search_paths hst)).
  split.
  - rewrite <- !app_assoc. reflexivity.
  - rewrite !count_app. rewrite count_add_paths by reflexivity.
    now destruct (fetch_opt_vec hst "helper_binary_path").
Qed.

(** ** The descriptor *)

Lemma delete_runs d w :
  runs (PluginRegistrationData_delete d) w tt (fatal_condition w) (delete_events d).
Proof.
  unfold runs, PluginRegistrationData_delete, delete_events, bind, emit, ret.
  destruct (negb (dlfile d =? NULL)); destruct (external_http d);
    cbn [trace fatal_condition app]; rewrite <- ?app_assoc, ?app_nil_r;
    try reflexivity; now destruct w.
Qed.

Lemma apply_setter_dlfile op d :
  is_set_dlfile op = false -> dlfile (apply_setter op d) = dlfile d.
Proof. destruct d, op; cbn; congruence. Qed.

Lemma apply_setters_dlfile ops : forall d,
  existsb is_set_dlfile ops = false ->
  dlfile (apply_setters ops d) = dlfile d.
Proof.
  unfold apply_setters.
  induction ops as [| op ops IH]; intros d H; [reflexivity |].
  cbn in H. apply orb_false_iff in H as [Hop Hops].
  cbn [fold_left]. rewrite IH by assumption. now apply apply_setter_dlfile.
Qed.

Lemma existsb_filter_negb {A} (p : A -> bool) (l : list A) :
  existsb p (filter (fun x => negb (p x)) l) = false.
Proof.
  induction l as [| x l IH]; [reflexivity |].
  cbn. destruct (p x) eqn:E; cbn; [| rewrite E]; exact IH.
Qed.

Lemma owns_null_handle h d : dlfile d = NULL -> owns h d = false.
Proof.
  unfold owns. intros ->. rewrite (Z.eqb_sym NULL h).
  now destruct (h =? NULL).
Qed.

Lemma apply_setters_snoc ops op d :
  apply_setters (ops ++ [op]) d = apply_setter op (apply_setters ops d).
Proof. unfold apply_setters. now rewrite fold_left_app. Qed.

Lemma apply_setter_external_http op d :
  external_http (apply_setter op d) = external_http d.
Proof. destruct d, op; reflexivity. Qed.

Lemma apply_setters_external_http ops : forall d,
  external_http (apply_setters ops d) = external_http d.
Proof.
  unfold apply_setters. induction ops as [| op ops IH]; intros d; [reflexivity |].
  cbn [fold_left]. rewrite IH. apply apply_setter_external_http.
Qed.

Lemma last_set_dlfile_snoc ops op init :
  last_set_dlfile (ops ++ [op]) init
  = match op with
    | set_plugin_dlfile h => h
    | _ => last_set_dlfile ops init
    end.
Proof.
  unfold last_set_dlfile. rewrite rev_app_distr. cbn [rev app find].
  destruct op; reflexivity.
Qed.

Lemma apply_setters_last_dlfile ops d :
  dlfile (apply_setters ops d) = last_set_dlfile ops (dlfile d).
Proof.
  induction ops as [| op ops IH] using rev_ind; [reflexivity |].
  rewrite apply_setters_snoc, last_set_dlfile_snoc.
  destruct op; try (rewrite apply_setter_dlfile by reflexivity; exact IH).
  now destruct (apply_setters ops d).
Qed.

(** C9, as the code has it.  The three constructors leave the module
    handle null, and it stays null under every setter other than
    [set_plugin_dlfile]; both [clone_type] overloads answer a descriptor
    whose handle is null, so cloning adds no owner to any handle.  A handle
    is owned by exactly the descriptors whose latest [set_plugin_dlfile]
    gave it to them: by one at most when it was given to one only, which the
    class leaves to its callers. *)
Theorem descriptor_handle_ownership :
  dlfile PluginRegistrationData_new = NULL /\
  (forall in_id, dlfile (PluginRegistrationData_new_id in_id) = NULL) /\
  (forall in_id e, dlfile (PluginRegistrationData_new_id_map in_id e) = NULL) /\
  (forall id e ops,
      dlfile (apply_setters (filter (fun op => negb (is_set_dlfile op)) ops)
                            (construct id e)) = NULL) /\
  (forall d, dlfile (clone_type d) = NULL) /\
  (forall d in_id, dlfile (clone_type_id d in_id) = NULL) /\
  (forall l in_id h,
      List.length (owners h (l ++ map clone_type l
                               ++ map (fun d => clone_type_id d in_id) l))
      = List.length (owners h l)) /\
  (forall cs h,
      List.length (owners h (map built_descriptor cs))
      = List.length (filter (given_handle h) cs)).
Proof.
  repeat split; try reflexivity.
  - intros id e ops. rewrite apply_setters_dlfile; [reflexivity |].
    apply existsb_filter_negb.
  - intros l in_id h. unfold owners. rewrite !filter_app, !length_app.
    replace (filter (owns h) (map clone_type l)) with (@nil PluginRegistrationData).
    + replace (filter (owns h) (map (fun d => clone_type_id d in_id) l))
        with (@nil PluginRegistrationData); [cbn; lia |].
      induction l as [| d l IH]; [reflexivity |].
      cbn [map filter].
      now rewrite (owns_null_handle h (clone_type_id d in_id)) by reflexivity.
    + induction l as [| d l IH]; [reflexivity |].
      cbn [map filter].
      now rewrite (owns_null_handle h (clone_type d)) by reflexivity.
  - intros cs h. unfold owners.
    induction cs as [| [[id e] ops] cs IH]; [reflexivity |].
    cbn [map filter]. unfold owns at 1, given_handle at 1.
    cbn [built_descriptor snd].
    rewrite apply_setters_last_dlfile. cbn [construct dlfile].
    destruct (negb (h =? NULL) && (last_set_dlfile ops NULL =? h));
      cbn [List.length]; now rewrite IH.
Qed.

(** C9, as the claim words it, fails: two descriptors, each built by a
    constructor and one [set_plugin_dlfile 5], own handle 5 together. *)
Lemma shared_handle_has_two_owners :
  sample_owner_a <> sample_owner_b /\
  owners 5 [sample_owner_a; sample_owner_b] = [sample_owner_a; sample_owner_b] /\
  List.length (owners 5 [sample_owner_a; sample_owner_b]) = 2%nat.
Proof. split; [discriminate | split; reflexivity]. Qed.

(** X12. The destructor closes the module handle in its body, when the
    handle is not null, and the harness reference is dropped after the
    body, with the other members: whatever a descriptor holds, its
    destructor makes no [dlclose] call after the harness has been
    released. *)
Theorem destructor_closes_handle_first d w :
  events_of (PluginRegistrationData_delete d) w = delete_events d /\
  handle_before_harness (events_of (PluginRegistrationData_delete d) w) = true.
Proof.
  rewrite (runs_events _ _ _ _ _ (delete_runs d w)). split; [reflexivity |].
  unfold delete_events.
  destruct (negb (dlfile d =? NULL)); destruct (external_http d); reflexivity.
Qed.

(** ** The activation loop *)

Lemma activate_one_runs ld x w :
  runs (activate_one ld x) w (promote ld x) (fatal_condition w)
       (activate_events ld x).
Proof.
  unfold runs, promote, activate_events, events_of, exec, eval, activate_one.
  unfold bind, emit, _MSG_ERROR, ret.
  destruct (has_so x).
  - destruct (dlopen ld (so_file x) =? NULL);
      [| destruct (kis_plugin_version_check ld (dlopen ld (so_file x))
                     fresh_server_info <? 0);
         [| destruct (kis_plugin_activate ld (dlopen ld (so_file x)) <? 0)]];
      unfold bind, emit, _MSG_ERROR, ret;
      cbn [fst snd trace fatal_condition app List.length skipn empty_world];
      rewrite <- ?app_assoc; reflexivity.
  - cbn. rewrite app_nil_r. now destruct w.
Qed.

Lemma activate_all_runs ld : forall l w,
  runs (activate_all ld l) w (promoted ld l, dropped ld l) (fatal_condition w)
       (flat_map (activate_events ld) l).
Proof.
  induction l as [| x rest IH]; intros w.
  - apply runs_ret.
  - cbn [activate_all flat_map].
    eapply runs_bind; [apply activate_one_runs |].
    rewrite <- (app_nil_r (flat_map (activate_events ld) rest)).
    eapply runs_bind; [apply (IH (mkWorld (fatal_condition w) _)) |].
    cbn [fst snd fatal_condition].
    replace (match promote ld x with
             | Some x' => (x' :: promoted ld rest, dropped ld rest)
             | None => (promoted ld rest, x :: dropped ld rest)
             end) with (promoted ld (x :: rest), dropped ld (x :: rest)).
    + apply (runs_ret _ (mkWorld (fatal_condition w) _)).
    + unfold promoted, dropped. cbn [flat_map filter].
      now destruct (promote ld x).
Qed.

Lemma for_each_delete_runs : forall l w,
  runs (for_each l PluginRegistrationData_delete) w tt (fatal_condition w)
       (flat_map delete_events l).
Proof.
  induction l as [| d rest IH]; intros w.
  - apply runs_ret.
  - cbn [for_each flat_map].
    eapply runs_bind; [apply delete_runs |].
    apply (IH (mkWorld (fatal_condition w) _)).
Qed.

Lemma ActivatePlugins_runs ld t w :
  runs (ActivatePlugins ld t) w
       (mkTracker (plugin_registry_vec t ++ promoted ld (plugin_preload t)) [])
       (fatal_condition w)
       (flat_map (activate_events ld) (plugin_preload t)
        ++ flat_map delete_events (dropped ld (plugin_preload t))).
Proof.
  unfold ActivatePlugins.
  eapply runs_bind; [apply activate_all_runs |].
  rewrite <- (app_nil_r (flat_map delete_events _)).
  eapply runs_bind;
    [apply (for_each_delete_runs _ (mkWorld (fatal_condition w) _)) |].
  apply (runs_ret _ (mkWorld (fatal_condition w) _)).
Qed.

Lemma ShutdownPlugins_runs t w :
  runs (ShutdownPlugins t) w (mkTracker [] (plugin_preload t)) (fatal_condition w)
       (flat_map delete_events (plugin_registry_vec t)).
Proof.
  unfold ShutdownPlugins.
  rewrite <- (app_nil_r (flat_map delete_events _)).
  eapply runs_bind; [apply for_each_delete_runs |].
  apply (runs_ret _ (mkWorld (fatal_condition w) _)).
Qed.

Lemma delete_events_of d w :
  events_of (PluginRegistrationData_delete d) w = delete_events d.
Proof. exact (runs_events _ _ _ _ _ (delete_runs d w)). Qed.

Lemma for_each_delete_events l w :
  events_of (for_each l PluginRegistrationData_delete) w
  = flat_map delete_events l.
Proof. exact (runs_events _ _ _ _ _ (for_each_delete_runs l w)). Qed.


(** ** Regular computations *)

Lemma regular_intro {A} (m : M A) a evs :
  (forall w, exists fc, runs m w a fc evs) -> regular m.
Proof.
  intros H w. destruct (H empty_world) as [fc0 H0].
  rewrite (runs_eval _ _ _ _ _ H0), (runs_events _ _ _ _ _ H0). apply H.
Qed.

Lemma regular_runs {A} (m : M A) w w0 :
  regular m -> exists fc, runs m w (eval m w0) fc (events_of m w0).
Proof.
  intros H. destruct (H w0) as [fc0 H0].
  rewrite (runs_eval _ _ _ _ _ H0), (runs_events _ _ _ _ _ H0). apply H.
Qed.

Lemma regular_eval {A} (m : M A) w w0 : regular m -> eval m w = eval m w0.
Proof.
  intros H. destruct (regular_runs m w w0 H) as [fc Hr].
  exact (runs_eval _ _ _ _ _ Hr).
Qed.

Lemma regular_events {A} (m : M A) w w0 :
  regular m -> events_of m w = events_of m w0.
Proof.
  intros H. destruct (regular_runs m w w0 H) as [fc Hr].
  exact (runs_events _ _ _ _ _ Hr).
Qed.

Lemma regular_ret {A} (a : A) : regular (ret a).
Proof. apply (regular_intro _ a []). intros w. eexists. apply runs_ret. Qed.

Lemma regular_emit e : regular (emit e).
Proof. apply (regular_intro _ tt [e]). intros w. eexists. apply runs_emit. Qed.

Lemma regular_bind {A B} (m : M A) (k : A -> M B) :
  regular m -> (forall a, regular (k a)) -> regular (bind m k).
Proof.
  intros Hm Hk.
  apply (regular_intro _ (eval (k (eval m empty_world)) empty_world)
           (events_of m empty_world
            ++ events_of (k (eval m empty_world)) empty_world)).
  intros w. destruct (Hm w) as [fc Hr].
  destruct (Hk (eval m empty_world)
               (mkWorld fc (trace w ++ events_of m empty_world))) as [fc' Hr'].
  exists fc'. eapply runs_bind; eassumption.
Qed.

Lemma events_of_bind {A B} (m : M A) (k : A -> M B) w :
  regular m -> (forall a, regular (k a)) ->
  events_of (bind m k) w = events_of m w ++ events_of (k (eval m w)) w.
Proof.
  intros Hm Hk. destruct (Hm w) as [fc Hr].
  destruct (Hk (eval m empty_world)
               (mkWorld fc (trace w ++ events_of m empty_world))) as [fc' Hr'].
  rewrite (runs_events _ _ _ _ _ (runs_bind _ _ _ _ _ _ _ _ _ Hr Hr')).
  rewrite (regular_events m w empty_world Hm).
  rewrite (regular_eval m w empty_world Hm).
  now rewrite (regular_events (k _) w empty_world (Hk _)).
Qed.

Lemma eval_bind {A B} (m : M A) (k : A -> M B) w :
  regular m -> (forall a, regular (k a)) ->
  eval (bind m k) w = eval (k (eval m w)) w.
Proof.
  intros Hm Hk. destruct (Hm w) as [fc Hr].
  destruct (Hk (eval m empty_world)
               (mkWorld fc (trace w ++ events_of m empty_world))) as [fc' Hr'].
  rewrite (runs_eval _ _ _ _ _ (runs_bind _ _ _ _ _ _ _ _ _ Hr Hr')).
  rewrite (regular_eval m w empty_world Hm).
  now rewrite (regular_eval (k _) w empty_world (Hk _)).
Qed.

Lemma regular_harness_new hst base plugin_name binary :
  regular (ExternalHttpPluginHarness_new hst base plugin_name binary).
Proof.
  destruct (contains_slash binary) eqn:Hs.
  - eapply regular_intro. intros w. eexists. now apply harness_rejected.
  - eapply regular_intro. intros w. eexists. now apply harness_accepted.
Qed.

Lemma regular_activate_external_http hst base x :
  regular (activate_external_http hst base x).
Proof.
  unfold activate_external_http. destruct (harness_only x).
  - apply regular_bind; [apply regular_harness_new | intros; apply regular_ret].
  - apply regular_ret.
Qed.

Lemma regular_finalize_call ld x :
  regular (if negb (dlfile x =? NULL)
           then match kis_plugin_finalize ld (dlfile x) with
                | Some r =>
                    emit (ev_finalize (dlfile x) r) ;;
                    if r <? 0
                    then _MSG_ERROR "finalize rejection: {}" [plugin_name x]
                    else ret tt
                | None => ret tt
                end
           else ret tt).
Proof.
  destruct (negb (dlfile x =? NULL)); [| apply regular_ret].
  destruct (kis_plugin_finalize ld (dlfile x)) as [r |]; [| apply regular_ret].
  apply regular_bind; [apply regular_emit |].
  intros _. destruct (r <? 0); [apply regular_emit | apply regular_ret].
Qed.

Lemma regular_finalize_one ld hst base x : regular (finalize_one ld hst base x).
Proof.
  unfold finalize_one. apply regular_bind.
  - apply regular_finalize_call.
  - intros _. apply regular_activate_external_http.
Qed.

Lemma finalize_all_runs ld hst base : forall l w,
  exists fc, runs (finalize_all ld hst base l) w
                  (map (finalized ld hst base) l) fc
                  (flat_map (finalize_events ld hst base) l).
Proof.
  induction l as [| x rest IH]; intros w.
  - eexists. apply runs_ret.
  - cbn [finalize_all map flat_map].
    destruct (regular_finalize_one ld hst base x w) as [fc1 H1].
    destruct (IH (mkWorld fc1 (trace w ++ finalize_events ld hst base x)))
      as [fc2 H2].
    exists fc2. eapply runs_bind; [exact H1 |].
    rewrite <- (app_nil_r (flat_map _ rest)).
    eapply runs_bind; [exact H2 |].
    apply (runs_ret _ (mkWorld fc2 _)).
Qed.

Lemma FinalizePlugins_runs ld hst base t w :
  exists fc, runs (FinalizePlugins ld hst base t) w
                  (mkTracker (map (finalized ld hst base) (plugin_registry_vec t))
                             (plugin_preload t))
                  fc
                  (flat_map (finalize_events ld hst base) (plugin_registry_vec t)).
Proof.
  unfold FinalizePlugins.
  destruct (finalize_all_runs ld hst base (plugin_registry_vec t) w) as [fc H].
  exists fc. rewrite <- (app_nil_r (flat_map _ _)).
  eapply runs_bind; [exact H |]. apply (runs_ret _ (mkWorld fc _)).
Qed.

(** The whole lifecycle in one run: activation, the destructors of the
    dropped descriptors, finalize, and the destructors of shutdown. *)
Lemma lifecycle_runs ld hst base preload w :
  exists fc,
    runs (lifecycle ld hst base preload) w (mkTracker [] []) fc
         ((flat_map (activate_events ld) preload
           ++ flat_map delete_events (dropped ld preload))
          ++ flat_map (finalize_events ld hst base) (promoted ld preload)
          ++ flat_map delete_events
               (map (finalized ld hst base) (promoted ld preload))).
Proof.
  unfold lifecycle.
  pose proof (ActivatePlugins_runs ld (scanned preload) w) as Ha.
  cbn [scanned plugin_registry_vec plugin_preload app] in Ha.
  destruct (FinalizePlugins_runs ld hst base (mkTracker (promoted ld preload) [])
              (mkWorld (fatal_condition w)
                 (trace w ++ flat_map (activate_events ld) preload
                          ++ flat_map delete_events (dropped ld preload))))
    as [fc Hf].
  cbn [plugin_registry_vec plugin_preload] in Hf.
  exists fc. eapply runs_bind; [exact Ha |].
  eapply runs_bind; [exact Hf |].
  apply (ShutdownPlugins_runs
           (mkTracker (map (finalized ld hst base) (promoted ld preload)) [])
           (mkWorld fc _)).
Qed.

(** ** Counting calls *)

Lemma count_none p (l : list event) :
  (forall e, In e l -> p e = false) -> count p l = 0%nat.
Proof.
  induction l as [| e l IH]; intros H; [reflexivity |].
  unfold count in *. cbn [filter]. rewrite (H e) by now left.
  apply IH. intros e' He'. apply H. now right.
Qed.

Lemma count_flat_map {A} p (f : A -> list event) (q : A -> bool) (l : list A) :
  (forall x, In x l -> count p (f x) = indicator (q x)) ->
  count p (flat_map f l) = List.length (filter q l).
Proof.
  induction l as [| x l IH]; intros H; [reflexivity |].
  cbn [flat_map filter]. rewrite count_app, (H x) by now left.
  rewrite IH by (intros y Hy; apply H; now right).
  now destruct (q x).
Qed.

Lemma filter_length_ext {A} (p q : A -> bool) (l : list A) :
  (forall x, In x l -> p x = q x) ->
  List.length (filter p l) = List.length (filter q l).
Proof.
  induction l as [| x l IH]; intros H; [reflexivity |].
  cbn [filter]. rewrite (H x) by now left.
  destruct (q x); cbn [List.length]; rewrite IH; auto;
    intros y Hy; apply H; now right.
Qed.

Lemma null_handles_In l d : null_handles l = true -> In d l -> dlfile d = NULL.
Proof.
  unfold null_handles. rewrite forallb_forall. intros H Hd.
  apply Z.eqb_eq. now apply H.
Qed.

(** *** One turn of the activation loop *)

Lemma promote_cases ld x :
  promote ld x =
    if has_so x then
      if dlopen ld (so_file x) =? NULL then None
      else if accepted ld (dlopen ld (so_file x))
           then Some (apply_setter (set_plugin_dlfile (dlopen ld (so_file x))) x)
           else None
    else Some x.
Proof.
  unfold promote, eval, activate_one, accepted, bind, emit, _MSG_ERROR, ret.
  destruct (has_so x); [| reflexivity].
  destruct (dlopen ld (so_file x) =? NULL); [reflexivity |].
  destruct (kis_plugin_version_check ld _ _ <? 0); [reflexivity |].
  destruct (kis_plugin_activate ld _ <? 0); reflexivity.
Qed.

Lemma activate_events_cases ld x :
  activate_events ld x =
    if has_so x then
      let h := dlopen ld (so_file x) in
      ev_dlopen (so_file x) h ::
      if h =? NULL
      then [ev_msg MSGFLAG_ERROR "module-open failure: {}" [plugin_name x]]
      else
        ev_version_check h KIS_PLUGINTRACKER_VERSION
          (kis_plugin_version_check ld h fresh_server_info) ::
        if kis_plugin_version_check ld h fresh_server_info <? 0
        then [ev_msg MSGFLAG_ERROR "version-check rejection: {}" [plugin_name x];
              ev_dlclose h]
        else
          ev_activate h (kis_plugin_activate ld h) ::
          if kis_plugin_activate ld h <? 0
          then [ev_msg MSGFLAG_ERROR "activation rejection: {}" [plugin_name x];
                ev_dlclose h]
          else []
    else [].
Proof.
  unfold activate_events, events_of, exec, activate_one, bind, emit, _MSG_ERROR, ret.
  destruct (has_so x); [| reflexivity].
  cbv zeta.
  destruct (dlopen ld (so_file x) =? NULL); [reflexivity |].
  destruct (kis_plugin_version_check ld _ _ <? 0); [reflexivity |].
  destruct (kis_plugin_activate ld _ <? 0); reflexivity.
Qed.

Lemma count_dlclose_activate ld h x :
  count (is_dlclose h) (activate_events ld x)
  = indicator (opens ld h x && negb (accepted ld h)).
Proof.
  rewrite activate_events_cases. unfold opens, accepted.
  destruct (has_so x); [| reflexivity].
  cbv zeta. set (hx := dlopen ld (so_file x)).
  destruct (hx =? h) eqn:Eh.
  - apply Z.eqb_eq in Eh. subst h.
    destruct (hx =? NULL) eqn:En; [reflexivity |].
    unfold count. cbn [filter is_dlclose andb negb].
    destruct (kis_plugin_version_check ld hx fresh_server_info <? 0).
    + cbn [filter is_dlclose]. now rewrite Z.eqb_refl.
    + destruct (kis_plugin_activate ld hx <? 0); cbn [filter is_dlclose];
        [now rewrite Z.eqb_refl | reflexivity].
  - rewrite andb_false_r. cbn [andb indicator].
    apply count_none. intros e He.
    destruct (hx =? NULL); cbn in He.
    + destruct He as [<- | [<- | []]]; reflexivity.
    + destruct (kis_plugin_version_check ld hx fresh_server_info <? 0);
        [| destruct (kis_plugin_activate ld hx <? 0)]; cbn in He;
        repeat (destruct He as [<- | He]; [try reflexivity; exact Eh |]);
        destruct He.
Qed.

Lemma count_dlopen_activate ld h x :
  (h =? NULL) = false ->
  count (is_dlopen h) (activate_events ld x) = indicator (opens ld h x).
Proof.
  intros Hh. rewrite activate_events_cases. unfold opens. rewrite Hh.
  destruct (has_so x); [| reflexivity].
  cbv zeta. set (hx := dlopen ld (so_file x)).
  unfold count. cbn [filter is_dlopen andb negb].
  destruct (hx =? h); cbn [indicator List.length];
    (destruct (hx =? NULL); [reflexivity |]);
    (destruct (kis_plugin_version_check ld hx fresh_server_info <? 0);
     [reflexivity |]);
    destruct (kis_plugin_activate ld hx <? 0); reflexivity.
Qed.

Lemma owners_promote ld h x :
  dlfile x = NULL ->
  List.length (owners h (match promote ld x with Some x' => [x'] | None => [] end))
  = indicator (opens ld h x && accepted ld h).
Proof.
  intros Hx. rewrite promote_cases. unfold opens, owners.
  destruct (has_so x).
  - set (hx := dlopen ld (so_file x)).
    destruct (hx =? NULL) eqn:En.
    + apply Z.eqb_eq in En. rewrite En.
      destruct (h =? NULL) eqn:Eh; [reflexivity |].
      rewrite (Z.eqb_sym NULL h), Eh. reflexivity.
    + destruct (hx =? h) eqn:Eh.
      * apply Z.eqb_eq in Eh. subst h. rewrite En.
        destruct (accepted ld hx); [| reflexivity].
        cbn [filter]. unfold owns. rewrite En.
        destruct x; cbn. now rewrite Z.eqb_refl.
      * rewrite andb_false_r. cbn [andb indicator].
        destruct (accepted ld hx); [| reflexivity].
        cbn [filter]. unfold owns.
        destruct x; cbn [apply_setter dlfile]. rewrite Eh.
        now rewrite andb_false_r.
  - cbn [filter andb indicator]. now rewrite owns_null_handle.
Qed.

Lemma count_dlclose_delete h d :
  count (is_dlclose h) (delete_events d) = indicator (owns h d).
Proof.
  unfold delete_events, owns. rewrite count_app.
  replace (count (is_dlclose h)
             match external_http d with
             | Some hn => [ev_release_harness (external_binary hn)]
             | None => []
             end) with 0%nat by now destruct (external_http d).
  rewrite Nat.add_0_r.
  destruct (dlfile d =? NULL) eqn:En.
  - apply Z.eqb_eq in En. rewrite En. cbn [negb count filter List.length].
    rewrite (Z.eqb_sym NULL h). now destruct (h =? NULL).
  - unfold count. cbn [negb filter is_dlclose].
    destruct (dlfile d =? h) eqn:Eh; [| now rewrite andb_false_r].
    apply Z.eqb_eq in Eh. subst h. now rewrite En.
Qed.

Lemma count_dlclose_deletes h l :
  count (is_dlclose h) (flat_map delete_events l) = List.length (owners h l).
Proof.
  apply count_flat_map. intros x _. apply count_dlclose_delete.
Qed.

(** *** One turn of the finalize loop *)

Lemma harness_event_kinds hst base plugin_name binary w e :
  In e (events_of (ExternalHttpPluginHarness_new hst base plugin_name binary) w) ->
  is_harness_event e = true.
Proof.
  destruct (contains_slash binary) eqn:Hs.
  - rewrite (runs_events _ _ _ _ _
               (harness_rejected hst base plugin_name binary w Hs)).
    intros [<- | []]. reflexivity.
  - rewrite (runs_events _ _ _ _ _
               (harness_accepted hst base plugin_name binary w Hs)).
    unfold accepted_events. rewrite !in_app_iff.
    intros [H | [H | [H | [H | H]]]].
    + cbn in H. repeat (destruct H as [<- | H]; [reflexivity |]). destruct H.
    + destruct (fetch_opt_vec hst "helper_binary_path"); cbn in H;
        [destruct H as [<- | []]; reflexivity | destruct H].
    + apply in_map_iff in H as [s [<- _]]. reflexivity.
    + destruct H as [<- | []]. reflexivity.
    + destruct (launch_result hst binary <? 0); cbn in H;
        [destruct H as [<- | []]; reflexivity | destruct H].
Qed.

Lemma finalized_cases ld hst base x :
  finalized ld hst base x =
    if harness_only x
    then with_external_http
           (Some (eval (ExternalHttpPluginHarness_new hst base (plugin_name x)
                          (plugin_http_external x)) empty_world)) x
    else x.
Proof.
  unfold finalized, finalize_one.
  rewrite eval_bind;
    [| apply regular_finalize_call
     | intros; apply regular_activate_external_http].
  unfold activate_external_http. destruct (harness_only x); [| reflexivity].
  rewrite eval_bind; [reflexivity | apply regular_harness_new |].
  intros; apply regular_ret.
Qed.

Lemma finalized_dlfile ld hst base x : dlfile (finalized ld hst base x) = dlfile x.
Proof.
  rewrite finalized_cases. destruct (harness_only x); [| reflexivity].
  now destruct x.
Qed.

Lemma finalized_identity ld hst base x :
  plugin_identity (finalized ld hst base x) = plugin_identity x.
Proof.
  rewrite finalized_cases. destruct (harness_only x); [| reflexivity].
  now destruct x.
Qed.

Lemma finalize_events_cases ld hst base x :
  finalize_events ld hst base x =
    (if negb (dlfile x =? NULL)
     then match kis_plugin_finalize ld (dlfile x) with
          | Some r =>
              ev_finalize (dlfile x) r ::
              (if r <? 0
               then [ev_msg MSGFLAG_ERROR "finalize rejection: {}" [plugin_name x]]
               else [])
          | None => []
          end
     else [])
    ++ events_of (activate_external_http hst base x) empty_world.
Proof.
  unfold finalize_events, finalize_one.
  rewrite events_of_bind;
    [| apply regular_finalize_call
     | intros; apply regular_activate_external_http].
  f_equal.
  destruct (negb (dlfile x =? NULL)); [| reflexivity].
  destruct (kis_plugin_finalize ld (dlfile x)) as [r |]; [| reflexivity].
  now destruct (r <? 0).
Qed.

Lemma external_http_event_kinds hst base x e :
  In e (events_of (activate_external_http hst base x) empty_world) ->
  is_harness_event e = true.
Proof.
  unfold activate_external_http. destruct (harness_only x).
  - rewrite events_of_bind;
      [| apply regular_harness_new | intros; apply regular_ret].
    rewrite in_app_iff. intros [H | H].
    + eapply harness_event_kinds; eassumption.
    + destruct H.
  - intros [].
Qed.

Lemma finalize_event_origin ld hst base x h r :
  In (ev_finalize h r) (finalize_events ld hst base x) ->
  dlfile x = h /\ h <> NULL /\ kis_plugin_finalize ld h = Some r /\
  (r < 0 ->
   In (ev_msg MSGFLAG_ERROR "finalize rejection: {}" [plugin_name x])
      (finalize_events ld hst base x)).
Proof.
  rewrite finalize_events_cases, in_app_iff. intros [H | H].
  - destruct (dlfile x =? NULL) eqn:En; [destruct H |].
    cbn [negb] in H.
    destruct (kis_plugin_finalize ld (dlfile x)) as [r' |] eqn:Ef; [| destruct H].
    destruct H as [H | H].
    + injection H as Hh Hr. subst h r'.
      repeat split; try assumption.
      * now apply Z.eqb_neq.
      * intros Hneg. apply Z.ltb_lt in Hneg.
        cbn [negb]. rewrite Hneg, in_app_iff.
        left. right. now left.
    + destruct (r' <? 0); cbn in H; [destruct H as [H | []]; discriminate |].
      destruct H.
  - apply external_http_event_kinds in H. discriminate.
Qed.

Lemma count_dlclose_finalize ld hst base h x :
  count (is_dlclose h) (finalize_events ld hst base x) = 0%nat.
Proof.
  apply count_none. intros e. rewrite finalize_events_cases, in_app_iff.
  intros [H | H].
  - destruct (negb (dlfile x =? NULL)); [| destruct H].
    destruct (kis_plugin_finalize ld (dlfile x)) as [r |]; [| destruct H].
    destruct H as [<- | H]; [reflexivity |].
    destruct (r <? 0); cbn in H; [destruct H as [<- | []]; reflexivity |].
    destruct H.
  - apply external_http_event_kinds in H. now destruct e.
Qed.

(** *** The lists the loops build *)

Lemma promoted_app ld l1 l2 :
  promoted ld (l1 ++ l2) = promoted ld l1 ++ promoted ld l2.
Proof. unfold promoted. apply flat_map_app. Qed.

Lemma promoted_origin ld l y :
  In y (promoted ld l) -> exists x, In x l /\ promote ld x = Some y.
Proof.
  unfold promoted. rewrite in_flat_map. intros [x [Hx Hy]].
  exists x. split; [assumption |].
  destruct (promote ld x) as [x' |]; [| destruct Hy].
  destruct Hy as [<- | []]. reflexivity.
Qed.

Lemma dropped_incl ld l x : In x (dropped ld l) -> In x l.
Proof. unfold dropped. rewrite filter_In. tauto. Qed.

Lemma promote_identity ld x y :
  promote ld x = Some y -> plugin_identity y = plugin_identity x.
Proof.
  rewrite promote_cases. destruct (has_so x).
  - destruct (dlopen ld (so_file x) =? NULL); [discriminate |].
    destruct (accepted ld _); [| discriminate].
    intros [= <-]. now destruct x.
  - now intros [= <-].
Qed.

Lemma identity_so_file x y :
  plugin_identity x = plugin_identity y ->
  has_so x = has_so y /\ so_file x = so_file y.
Proof.
  destruct x, y. unfold plugin_identity, has_so, so_file. cbn.
  intros [=]. subst. split; reflexivity.
Qed.

Lemma owners_promoted ld h : forall l,
  null_handles l = true ->
  List.length (owners h (promoted ld l))
  = List.length (filter (fun x => opens ld h x && accepted ld h) l).
Proof.
  induction l as [| x l IH]; intros Hn; [reflexivity |].
  cbn in Hn. apply andb_true_iff in Hn as [Hx Hl]. apply Z.eqb_eq in Hx.
  change (promoted ld (x :: l))
    with ((match promote ld x with Some x' => [x'] | None => [] end)
          ++ promoted ld l).
  unfold owners in *. rewrite filter_app, length_app.
  pose proof (owners_promote ld h x Hx) as Ho. unfold owners in Ho.
  rewrite Ho, IH by assumption.
  cbn [filter]. now destruct (opens ld h x && accepted ld h).
Qed.

Lemma owners_finalized ld hst base h l :
  List.length (owners h (map (finalized ld hst base) l))
  = List.length (owners h l).
Proof.
  unfold owners. induction l as [| x l IH]; [reflexivity |].
  cbn [map filter].
  replace (owns h (finalized ld hst base x)) with (owns h x)
    by (unfold owns; now rewrite finalized_dlfile).
  destruct (owns h x); cbn [List.length]; now rewrite IH.
Qed.

Lemma owners_null h l : null_handles l = true -> owners h l = [].
Proof.
  intros Hn. unfold owners. induction l as [| x l IH]; [reflexivity |].
  cbn in Hn. apply andb_true_iff in Hn as [Hx Hl]. apply Z.eqb_eq in Hx.
  cbn [filter]. rewrite (owns_null_handle h x Hx). now apply IH.
Qed.

Lemma null_handles_dropped ld l :
  null_handles l = true -> null_handles (dropped ld l) = true.
Proof.
  unfold null_handles. rewrite !forallb_forall. intros H x Hx.
  apply H. eapply dropped_incl. eassumption.
Qed.

Lemma filter_none {A} (l : list A) : filter (fun _ => false) l = [].
Proof. induction l; [reflexivity | assumption]. Qed.

Lemma filter_split_length {A} (p : A -> bool) (c : bool) (l : list A) :
  (List.length (filter (fun x => p x && negb c) l)
   + List.length (filter (fun x => p x && c) l))%nat
  = List.length (filter p l).
Proof.
  induction l as [| x l IH]; [reflexivity |].
  cbn [filter]. destruct (p x), c; cbn [andb negb List.length] in *; lia.
Qed.

(** Over the whole lifecycle a module handle is closed as often as the
    activation opened it. *)
Lemma lifecycle_dlclose_count ld hst base preload h w :
  null_handles preload = true ->
  count (is_dlclose h) (events_of (lifecycle ld hst base preload) w)
  = List.length (filter (opens ld h) preload).
Proof.
  intros Hn. destruct (lifecycle_runs ld hst base preload w) as [fc Hr].
  rewrite (runs_events _ _ _ _ _ Hr), !count_app.
  rewrite (count_flat_map _ _ (fun x => opens ld h x && negb (accepted ld h)))
    by (intros; apply count_dlclose_activate).
  rewrite !count_dlclose_deletes.
  rewrite (owners_null h _ (null_handles_dropped ld _ Hn)).
  rewrite (count_flat_map _ _ (fun _ => false))
    by (intros; apply count_dlclose_finalize).
  rewrite owners_finalized, owners_promoted by assumption.
  rewrite filter_none. cbn [List.length]. rewrite Nat.add_0_r, Nat.add_0_l.
  apply filter_split_length.
Qed.

(** *** Which calls each stage makes *)

Lemma activate_event_kinds ld x e :
  In e (activate_events ld x) ->
  match e with
  | ev_dlopen _ _ | ev_msg _ _ _ | ev_version_check _ _ _
  | ev_activate _ _ | ev_dlclose _ => True
  | _ => False
  end.
Proof.
  rewrite activate_events_cases.
  destruct (has_so x); [| intros []].
  cbv zeta. destruct (dlopen ld (so_file x) =? NULL);
    [| destruct (kis_plugin_version_check ld _ _ <? 0);
       [| destruct (kis_plugin_activate ld _ <? 0)]];
    cbn [In]; intros H;
    repeat (destruct H as [<- | H]; [exact I |]); destruct H.
Qed.

Lemma delete_event_kinds d e :
  In e (delete_events d) ->
  match e with ev_dlclose _ | ev_release_harness _ => True | _ => False end.
Proof.
  unfold delete_events. rewrite in_app_iff.
  destruct (negb (dlfile d =? NULL)); destruct (external_http d); cbn [In];
    intros [H | H]; repeat (destruct H as [<- | H]; [exact I |]); destruct H.
Qed.

Lemma activation_stage_kinds ld l1 l2 e :
  In e (flat_map (activate_events ld) l1 ++ flat_map delete_events l2) ->
  match e with
  | ev_dlopen _ _ | ev_msg _ _ _ | ev_version_check _ _ _
  | ev_activate _ _ | ev_dlclose _ | ev_release_harness _ => True
  | _ => False
  end.
Proof.
  rewrite in_app_iff, !in_flat_map. intros [[x [_ H]] | [d [_ H]]].
  - apply activate_event_kinds in H. now destruct e.
  - apply delete_event_kinds in H. now destruct e.
Qed.

Lemma count_dlopen_deletes h l :
  count (is_dlopen h) (flat_map delete_events l) = 0%nat.
Proof.
  apply count_none. intros e. rewrite in_flat_map. intros [d [_ H]].
  apply delete_event_kinds in H. now destruct e.
Qed.

Lemma version_rejected_facts ld x :
  version_rejected ld x = true ->
  has_so x = true /\
  (dlopen ld (so_file x) =? NULL) = false /\
  accepted ld (dlopen ld (so_file x)) = false /\
  opens ld (dlopen ld (so_file x)) x = true.
Proof.
  unfold version_rejected, accepted, opens.
  rewrite !andb_true_iff, negb_true_iff. intros [[Hso Hn] Hv].
  rewrite Hso, Hn, Hv, Z.eqb_refl. repeat split.
Qed.

Lemma filter_opens_rejected ld h l :
  accepted ld h = false ->
  List.length (filter (fun x => opens ld h x && negb (accepted ld h)) l)
  = List.length (filter (opens ld h) l).
Proof.
  intros Ha. apply filter_length_ext. intros x _. rewrite Ha.
  now rewrite andb_true_r.
Qed.

Lemma promoted_handle_origin ld l d :
  null_handles l = true -> In d (promoted ld l) -> dlfile d <> NULL ->
  exists x, In x l /\ has_so x = true /\
            dlopen ld (so_file x) = dlfile d /\ accepted ld (dlfile d) = true.
Proof.
  intros Hn Hd Hh. destruct (promoted_origin ld l d Hd) as [x [Hx Hp]].
  exists x. split; [assumption |].
  rewrite promote_cases in Hp. destruct (has_so x).
  - destruct (dlopen ld (so_file x) =? NULL); [discriminate |].
    destruct (accepted ld (dlopen ld (so_file x))) eqn:Ha; [| discriminate].
    injection Hp as <-. destruct x; cbn in *. auto.
  - injection Hp as <-. elim Hh. eapply null_handles_In; eassumption.
Qed.


(** ** More about the stages *)

Lemma filter_nothing {A} (p : A -> bool) (l : list A) :
  (forall x, In x l -> p x = false) -> filter p l = [].
Proof.
  induction l as [| x l IH]; intros H; [reflexivity |].
  cbn [filter]. rewrite (H x) by now left.
  apply IH. intros y Hy. apply H. now right.
Qed.

Lemma exec_bind {A B} (m : M A) (k : A -> M B) w :
  exec (bind m k) w = exec (k (eval m w)) (exec m w).
Proof. unfold exec, eval, bind. now destruct (m w). Qed.

Lemma activate_one_events ld x w :
  events_of (activate_one ld x) w = activate_events ld x.
Proof. exact (runs_events _ _ _ _ _ (activate_one_runs ld x w)). Qed.

Lemma activate_one_eval ld x w : eval (activate_one ld x) w = promote ld x.
Proof. exact (runs_eval _ _ _ _ _ (activate_one_runs ld x w)). Qed.

Lemma rejected_turn ld x :
  version_rejected ld x = true ->
  promote ld x = None /\
  filter is_open_or_close (activate_events ld x)
  = [ev_dlopen (so_file x) (dlopen ld (so_file x));
     ev_dlclose (dlopen ld (so_file x))].
Proof.
  unfold version_rejected. rewrite !andb_true_iff, negb_true_iff.
  intros [[Hso Hn] Hv].
  rewrite promote_cases, activate_events_cases, Hso. cbv zeta.
  unfold accepted. rewrite Hn, Hv. split; reflexivity.
Qed.

Lemma finalize_event_kinds ld hst base x e :
  In e (finalize_events ld hst base x) ->
  is_finalize e = true \/ is_harness_event e = true.
Proof.
  rewrite finalize_events_cases, in_app_iff. intros [H | H].
  - destruct (negb (dlfile x =? NULL)); [| destruct H].
    destruct (kis_plugin_finalize ld (dlfile x)) as [r |]; [| destruct H].
    destruct H as [<- | H]; [now left |].
    destruct (r <? 0); cbn in H; [| destruct H].
    destruct H as [<- | []]. now right.
  - right. eapply external_http_event_kinds. eassumption.
Qed.

Lemma count_dlopen_finalize ld hst base h l :
  count (is_dlopen h) (flat_map (finalize_events ld hst base) l) = 0%nat.
Proof.
  apply count_none. intros e. rewrite in_flat_map. intros [x [_ H]].
  apply finalize_event_kinds in H. destruct e; destruct H; try discriminate;
    reflexivity.
Qed.

(** Over the whole lifecycle a module handle is opened once for every
    preload descriptor whose module it is. *)
Lemma lifecycle_dlopen_count ld hst base preload h w :
  (h =? NULL) = false ->
  count (is_dlopen h) (events_of (lifecycle ld hst base preload) w)
  = List.length (filter (opens ld h) preload).
Proof.
  intros Hh. destruct (lifecycle_runs ld hst base preload w) as [fc Hr].
  rewrite (runs_events _ _ _ _ _ Hr), !count_app.
  rewrite !count_dlopen_deletes, count_dlopen_finalize.
  rewrite (count_flat_map _ _ (opens ld h))
    by (intros; now apply count_dlopen_activate).
  lia.
Qed.

Lemma activation_dlclose_count ld preload h :
  null_handles preload = true ->
  count (is_dlclose h)
        (flat_map (activate_events ld) preload
         ++ flat_map delete_events (dropped ld preload))
  = List.length (filter (fun z => opens ld h z && negb (accepted ld h)) preload).
Proof.
  intros Hn. rewrite count_app, count_dlclose_deletes.
  rewrite (owners_null h _ (null_handles_dropped ld _ Hn)).
  rewrite (count_flat_map _ _ (fun z => opens ld h z && negb (accepted ld h)))
    by (intros; apply count_dlclose_activate).
  cbn. lia.
Qed.

Lemma filter_In_length {A} (p : A -> bool) (l : list A) x :
  In x l -> p x = true -> (1 <= List.length (filter p l))%nat.
Proof.
  intros Hx Hp. assert (H : In x (filter p l)) by (apply filter_In; auto).
  destruct (filter p l); [destruct H | cbn; lia].
Qed.


Lemma delete_null_closes_nothing d :
  dlfile d = NULL -> count is_any_dlclose (delete_events d) = 0%nat.
Proof.
  intros Hd. unfold delete_events. rewrite Hd.
  now destruct (external_http d).
Qed.

(** *** Handle or harness, never both *)



(** *** The finalize pass, call by call *)

Lemma finalize_calls_of ld hst base x :
  filter is_finalize (finalize_events ld hst base x) = finalize_call ld x.
Proof.
  rewrite finalize_events_cases, filter_app. unfold finalize_call.
  rewrite (filter_nothing is_finalize (events_of _ _)).
  - rewrite app_nil_r.
    destruct (negb (dlfile x =? NULL)); [| reflexivity].
    destruct (kis_plugin_finalize ld (dlfile x)) as [r |]; [| reflexivity].
    now destruct (r <? 0).
  - intros e He. apply external_http_event_kinds in He. now destruct e.
Qed.

Lemma finalize_calls_all ld hst base l :
  filter is_finalize (flat_map (finalize_events ld hst base) l)
  = flat_map (finalize_call ld) l.
Proof.
  induction l as [| y l IH]; [reflexivity |].
  cbn [flat_map]. now rewrite filter_app, finalize_calls_of, IH.
Qed.

Lemma finalized_has_harness ld hst base x :
  has_harness (finalized ld hst base x) = harness_only x || has_harness x.
Proof.
  rewrite finalized_cases. destruct (harness_only x); [| reflexivity].
  now destruct x.
Qed.

Lemma exec_emit_flag e w : fatal_condition (exec (emit e) w) = fatal_condition w.
Proof. reflexivity. Qed.

Lemma finalize_one_flag ld hst base x w :
  fatal_condition (exec (finalize_one ld hst base x) w)
  = if bad_helper x then 1 else fatal_condition w.
Proof.
  unfold finalize_one. rewrite exec_bind.
  set (w1 := exec _ w).
  assert (Hw1 : fatal_condition w1 = fatal_condition w).
  { unfold w1. destruct (negb (dlfile x =? NULL)); [| reflexivity].
    destruct (kis_plugin_finalize ld (dlfile x)) as [r |]; [| reflexivity].
    rewrite exec_bind. now destruct (r <? 0). }
  unfold activate_external_http, bad_helper.
  destruct (harness_only x); [| exact Hw1].
  rewrite exec_bind. cbn [andb].
  destruct (contains_slash (plugin_http_external x)) eqn:Hs.
  - exact (runs_flag _ _ _ _ _
             (harness_rejected hst base (plugin_name x) _ w1 Hs)).
  - change (fatal_condition
              (exec (ExternalHttpPluginHarness_new hst base (plugin_name x)
                       (plugin_http_external x)) w1) = fatal_condition w).
    rewrite (runs_flag _ _ _ _ _
               (harness_accepted hst base (plugin_name x) _ w1 Hs)).
    exact Hw1.
Qed.

Lemma finalize_all_flag ld hst base : forall l w,
  fatal_condition (exec (finalize_all ld hst base l) w)
  = if existsb bad_helper l then 1 else fatal_condition w.
Proof.
  induction l as [| x rest IH]; intros w; [reflexivity |].
  cbn [finalize_all existsb]. rewrite exec_bind, exec_bind.
  change (fatal_condition (exec (finalize_all ld hst base rest)
                                (exec (finalize_one ld hst base x) w))
          = if bad_helper x || existsb bad_helper rest then 1
            else fatal_condition w).
  rewrite IH, finalize_one_flag.
  destruct (bad_helper x); destruct (existsb bad_helper rest); reflexivity.
Qed.

Lemma FinalizePlugins_flag ld hst base t w :
  fatal_condition (exec (FinalizePlugins ld hst base t) w)
  = if existsb bad_helper (plugin_registry_vec t) then 1 else fatal_condition w.
Proof.
  unfold FinalizePlugins. rewrite exec_bind. apply finalize_all_flag.
Qed.

(** ** Claims about the lifecycle *)

(** C2. A preload descriptor whose version check answers a negative value
    is dropped in its own turn of [ActivatePlugins]: the turn opens its
    module once and closes that module once, the destructor of the dropped
    descriptor closes nothing, and no descriptor of the active registry is
    that plugin or owns that module.  Over the activation, and over the whole
    lifecycle, the module is closed exactly as often as it was opened, once
    per preload descriptor whose module it is, and nothing after the
    activation closes it again; opened for this descriptor alone, it is
    closed exactly once. *)
Theorem version_rejected_closed_once ld hst base preload x w :
  null_handles preload = true ->
  In x preload ->
  version_rejected ld x = true ->
  let h := dlopen ld (so_file x) in
  let act := ActivatePlugins ld (scanned preload) in
  let reg := plugin_registry_vec (eval act w) in
  let run := lifecycle ld hst base preload in
  (forall w',
      eval (activate_one ld x) w' = None /\
      filter is_open_or_close (events_of (activate_one ld x) w')
        = [ev_dlopen (so_file x) h; ev_dlclose h] /\
      count is_any_dlclose (events_of (PluginRegistrationData_delete x) w')
        = 0%nat) /\
  (forall y, In y reg -> plugin_identity y <> plugin_identity x) /\
  owners h reg = [] /\
  count (is_dlclose h) (events_of act w) = count (is_dlopen h) (events_of act w) /\
  count (is_dlclose h) (events_of act w)
    = List.length (filter (opens ld h) preload) /\
  (1 <= count (is_dlclose h) (events_of act w))%nat /\
  count (is_dlclose h) (events_of run w) = count (is_dlclose h) (events_of act w) /\
  count (is_dlclose h) (events_of run w) = count (is_dlopen h) (events_of run w) /\
  (List.length (filter (opens ld h) preload) = 1%nat ->
   count (is_dlclose h) (events_of run w) = 1%nat).
Proof.
  intros Hn Hx Hrej h act reg run.
  destruct (version_rejected_facts ld x Hrej) as [Hso [Hnull [Hacc Hop]]].
  destruct (rejected_turn ld x Hrej) as [Hnone Hturn].
  fold h in Hnull, Hacc, Hop, Hturn.
  pose proof (ActivatePlugins_runs ld (scanned preload) w) as Ha.
  cbn [scanned plugin_registry_vec plugin_preload app] in Ha. fold act in Ha.
  assert (Hreg : reg = promoted ld preload).
  { unfold reg. now rewrite (runs_eval _ _ _ _ _ Ha). }
  assert (Hclose : count (is_dlclose h) (events_of act w)
                   = List.length (filter (opens ld h) preload)).
  { rewrite (runs_events _ _ _ _ _ Ha), activation_dlclose_count by assumption.
    now apply filter_opens_rejected. }
  assert (Hopen : count (is_dlopen h) (events_of act w)
                  = List.length (filter (opens ld h) preload)).
  { rewrite (runs_events _ _ _ _ _ Ha), count_app, count_dlopen_deletes.
    rewrite (count_flat_map _ _ (opens ld h))
      by (intros; now apply count_dlopen_activate).
    lia. }
  assert (Hrun : count (is_dlclose h) (events_of run w)
                 = List.length (filter (opens ld h) preload)).
  { unfold run. now apply lifecycle_dlclose_count. }
  split; [| split; [| split; [| split; [| split; [| split; [| split; [| split]]]]]]].
  - intros w'. rewrite activate_one_eval, activate_one_events, delete_events_of.
    split; [exact Hnone |]. split; [exact Hturn |].
    apply delete_null_closes_nothing. eapply null_handles_In; eassumption.
  - rewrite Hreg. intros y Hy Hid.
    destruct (promoted_origin ld preload y Hy) as [z [Hz Hp]].
    pose proof (promote_identity ld z y Hp) as Hzy. rewrite Hid in Hzy.
    destruct (identity_so_file _ _ Hzy) as [Hso' Hfile].
    rewrite promote_cases, <- Hso', Hso, <- Hfile in Hp. fold h in Hp.
    rewrite Hnull, Hacc in Hp. discriminate.
  - rewrite Hreg. apply length_zero_iff_nil.
    rewrite owners_promoted by assumption.
    rewrite (filter_length_ext _ (fun _ => false)), filter_none; [reflexivity |].
    intros z _. rewrite Hacc. apply andb_false_r.
  - now rewrite Hclose, Hopen.
  - exact Hclose.
  - rewrite Hclose. eapply filter_In_length; eassumption.
  - now rewrite Hrun, Hclose.
  - rewrite Hrun. unfold run. now rewrite lifecycle_dlopen_count.
  - intros Hone. now rewrite Hrun.
Qed.



(** C6. [FinalizePlugins] calls the finalize entry point only on the
    module of a descriptor of the active registry, a module whose
    activation entry point was called by [ActivatePlugins] and answered a
    non-negative value; [ActivatePlugins] itself never calls it.  A negative
    answer of finalize is logged with the plugin name and stops nothing:
    every loaded module that exports the entry point gets its one call, in
    registry order, every harness-only descriptor gets its harness, the
    fatal flag is raised for nothing but a helper name with a '/', and the
    registry afterwards holds the same plugins with the same module
    handles, in the same order. *)
Theorem finalize_only_after_activation ld hst base preload w :
  null_handles preload = true ->
  let act := ActivatePlugins ld (scanned preload) in
  let t1 := eval act w in
  let w1 := exec act w in
  let fin := FinalizePlugins ld hst base t1 in
  (forall h r,
      In (ev_finalize h r) (events_of fin w1) ->
      exists d a,
        In d (plugin_registry_vec t1) /\ dlfile d = h /\
        In (ev_activate h a) (events_of act w) /\
        0 <= a /\
        (r < 0 ->
         In (ev_msg MSGFLAG_ERROR "finalize rejection: {}" [plugin_name d])
            (events_of fin w1))) /\
  count is_finalize (events_of act w) = 0%nat /\
  filter is_finalize (events_of fin w1)
    = flat_map (finalize_call ld) (plugin_registry_vec t1) /\
  map has_harness (plugin_registry_vec (eval fin w1))
    = map (fun d => harness_only d || has_harness d) (plugin_registry_vec t1) /\
  fatal_condition (exec fin w1)
    = (if existsb bad_helper (plugin_registry_vec t1) then 1
       else fatal_condition w1) /\
  map plugin_identity (plugin_registry_vec (eval fin w1))
    = map plugin_identity (plugin_registry_vec t1) /\
  map dlfile (plugin_registry_vec (eval fin w1))
    = map dlfile (plugin_registry_vec t1).
Proof.
  intros Hn act t1 w1 fin.
  pose proof (ActivatePlugins_runs ld (scanned preload) w) as Ha.
  cbn [scanned plugin_registry_vec plugin_preload app] in Ha. fold act in Ha.
  assert (Ht1 : t1 = mkTracker (promoted ld preload) []).
  { unfold t1. exact (runs_eval _ _ _ _ _ Ha). }
  destruct (FinalizePlugins_runs ld hst base t1 w1) as [fc Hf]. fold fin in Hf.
  unfold fin at 5. rewrite FinalizePlugins_flag.
  rewrite (runs_events _ _ _ _ _ Hf), (runs_eval _ _ _ _ _ Hf),
    (runs_events _ _ _ _ _ Ha).
  rewrite Ht1. cbn [plugin_registry_vec].
  split; [| split; [| split; [| split; [| split; [| split]]]]].
  - intros h r Hin. apply in_flat_map in Hin as [d [Hd Hev]].
    destruct (finalize_event_origin ld hst base d h r Hev)
      as [Hdl [Hnn [_ Hlog]]].
    exists d, (kis_plugin_activate ld h).
    split; [assumption |]. split; [assumption |].
    subst h.
    destruct (promoted_handle_origin ld preload d Hn Hd Hnn)
      as [x [Hx [Hso [Hopen Hacc]]]].
    unfold accepted in Hacc. apply andb_true_iff in Hacc as [Hv Hact].
    apply negb_true_iff in Hv, Hact.
    split; [| split].
    + apply in_or_app. left. apply in_flat_map. exists x.
      split; [assumption |].
      rewrite activate_events_cases, Hso. cbv zeta. rewrite Hopen.
      apply Z.eqb_neq in Hnn. rewrite Hnn, Hv.
      right. right. now left.
    + now apply Z.ltb_ge.
    + intros Hneg. apply in_flat_map. exists d. auto.
  - apply count_none. intros e He.
    apply activation_stage_kinds in He. now destruct e.
  - apply finalize_calls_all.
  - rewrite map_map. apply map_ext. intros. apply finalized_has_harness.
  - reflexivity.
  - rewrite map_map. apply map_ext. intros. apply finalized_identity.
  - rewrite map_map. apply map_ext. intros. apply finalized_dlfile.
Qed.

(** ** The scan and the introspection endpoint *)

Lemma ScanDirectory_runs pd t w :
  runs (ScanDirectory pd t) w
       (mkTracker (plugin_registry_vec t)
                  (plugin_preload t ++ scanned_preload [pd]))
       (fatal_condition w) (scan_events [pd]).
Proof.
  unfold ScanDirectory, scanned_preload, scanned_manifests, scan_events.
  cbn [flat_map]. destruct (dir_manifest pd) as [| | m]; cbn [map app fst snd].
  - rewrite app_nil_r. destruct t. apply runs_ret.
  - rewrite app_nil_r. destruct t.
    rewrite <- (app_nil_r [ev_msg _ _ _]).
    eapply runs_bind; [apply runs_emit |].
    apply (runs_ret _ (mkWorld (fatal_condition w) _)).
  - apply runs_ret.
Qed.

Lemma scanned_preload_cons pd dirs :
  scanned_preload (pd :: dirs) = scanned_preload [pd] ++ scanned_preload dirs.
Proof.
  unfold scanned_preload, scanned_manifests. cbn [flat_map].
  now rewrite app_nil_r, map_app.
Qed.

Lemma scan_events_cons pd dirs :
  scan_events (pd :: dirs) = scan_events [pd] ++ scan_events dirs.
Proof. unfold scan_events. cbn [flat_map]. now rewrite app_nil_r. Qed.

Lemma ScanPlugins_runs : forall dirs t w,
  runs (ScanPlugins dirs t) w
       (mkTracker (plugin_registry_vec t)
                  (plugin_preload t ++ scanned_preload dirs))
       (fatal_condition w) (scan_events dirs).
Proof.
  induction dirs as [| pd dirs IH]; intros t w.
  - cbn [ScanPlugins]. unfold scanned_preload. cbn. rewrite app_nil_r.
    destruct t. apply runs_ret.
  - cbn [ScanPlugins]. rewrite scanned_preload_cons.
    rewrite scan_events_cons.
    eapply runs_bind; [apply ScanDirectory_runs |].
    specialize (IH (mkTracker (plugin_registry_vec t)
                      (plugin_preload t ++ scanned_preload [pd]))
                   (mkWorld (fatal_condition w) (trace w ++ scan_events [pd]))).
    cbn [plugin_registry_vec plugin_preload fatal_condition] in IH.
    rewrite <- app_assoc in IH. exact IH.
Qed.

Lemma startup_registry ld hst base dirs w :
  plugin_registry_vec (eval (startup ld hst base dirs) w)
  = map (finalized ld hst base) (promoted ld (scanned_preload dirs)).
Proof.
  unfold startup.
  pose proof (ScanPlugins_runs dirs (mkTracker [] []) w) as Hs.
  cbn [plugin_registry_vec plugin_preload app] in Hs.
  pose proof (ActivatePlugins_runs ld (mkTracker [] (scanned_preload dirs))
                (mkWorld (fatal_condition w) (trace w ++ scan_events dirs))) as Ha.
  cbn [plugin_registry_vec plugin_preload app fatal_condition trace] in Ha.
  destruct (FinalizePlugins_runs ld hst base
              (mkTracker (promoted ld (scanned_preload dirs)) [])
              (mkWorld (fatal_condition w)
                 ((trace w ++ scan_events dirs)
                  ++ flat_map (activate_events ld) (scanned_preload dirs)
                  ++ flat_map delete_events (dropped ld (scanned_preload dirs)))))
    as [fc Hf].
  cbn [plugin_registry_vec plugin_preload] in Hf.
  assert (H : runs (t0 <- ScanPlugins dirs (mkTracker [] []) ;;
                    t1 <- ActivatePlugins ld t0 ;;
                    FinalizePlugins ld hst base t1) w
                   (mkTracker (map (finalized ld hst base)
                                   (promoted ld (scanned_preload dirs))) [])
                   fc
                   (scan_events dirs
                    ++ (flat_map (activate_events ld) (scanned_preload dirs)
                        ++ flat_map delete_events
                             (dropped ld (scanned_preload dirs)))
                    ++ flat_map (finalize_events ld hst base)
                         (promoted ld (scanned_preload dirs)))).
  { eapply runs_bind; [exact Hs |]. eapply runs_bind; [exact Ha | exact Hf]. }
  now rewrite (runs_eval _ _ _ _ _ H).
Qed.

Lemma serialize_fields d :
  serialize d =
    [ ("kismet.plugin.name", plugin_name d);
      ("kismet.plugin.description", plugin_description d);
      ("kismet.plugin.author", plugin_author d);
      ("kismet.plugin.version", plugin_version d);
      ("kismet.plugin.shared_object", plugin_so d);
      ("kismet.plugin.http_helper", plugin_http_external d);
      ("kismet.plugin.dirname", plugin_dirname d);
      ("kismet.plugin.path", plugin_path d);
      ("kismet.plugin.jsmodule", plugin_js d) ].
Proof. reflexivity. Qed.

Lemma serialize_record d : serialize d = descriptor_record d.
Proof. reflexivity. Qed.

Lemma serialize_finalized ld hst base d :
  serialize (finalized ld hst base d) = serialize d.
Proof.
  rewrite finalized_cases. destruct (harness_only d); [| reflexivity].
  now destruct d.
Qed.

Lemma serialize_set_dlfile h d :
  serialize (apply_setter (set_plugin_dlfile h) d) = serialize d.
Proof. now destruct d. Qed.

Lemma records_of_scanned ld : forall l,
  map serialize (promoted ld (map (fun pm => descriptor_of (fst pm) (snd pm)) l))
  = map manifest_record (filter (activates ld) l).
Proof.
  induction l as [| [pd m] l IH]; [reflexivity |].
  cbn [map fst snd].
  change (promoted ld (descriptor_of pd m :: ?r))
    with ((match promote ld (descriptor_of pd m) with
           | Some x' => [x'] | None => []
           end) ++ promoted ld r).
  rewrite map_app, IH. cbn [filter].
  rewrite promote_cases. unfold activates, accepted.
  change (has_so (descriptor_of pd m))
    with (negb (m_shared_object m =? EmptyString)%string).
  change (so_file (descriptor_of pd m))
    with (dir_path pd ++ "/" ++ m_shared_object m)%string.
  destruct (m_shared_object m =? EmptyString)%string; cbn [negb].
  - reflexivity.
  - destruct (dlopen ld _ =? NULL); cbn [negb andb]; [reflexivity |].
    destruct (kis_plugin_version_check ld _ _ <? 0); cbn [negb andb];
      [reflexivity |].
    destruct (kis_plugin_activate ld _ <? 0); cbn [negb andb]; [reflexivity |].
    cbn [map app]. now rewrite serialize_set_dlfile.
Qed.

(** C5. After scan, activation and finalize, a GET on the introspection
    path answers one record per plugin that got through activation, in scan
    order, and each record carries under the registered field names the
    very values of the manifest, with the directory name and the install
    path.  For any registry the answer has one record per descriptor, each
    with the nine named fields as the descriptor holds them.  Any other pair
    of path and method is refused by [httpd_verify_path] and gets no
    response at all. *)
Theorem introspection_get_only ld hst base dirs w introspection_path t path method :
  let started := eval (startup ld hst base dirs) w in
  httpd_request introspection_path started introspection_path "GET"
    = Some (map manifest_record (filter (activates ld) (scanned_manifests dirs))) /\
  List.length (plugin_registry_vec started)
    = List.length (filter (activates ld) (scanned_manifests dirs)) /\
  httpd_verify_path introspection_path introspection_path "GET" = true /\
  httpd_request introspection_path t introspection_path "GET"
    = Some (map descriptor_record (plugin_registry_vec t)) /\
  List.length (map descriptor_record (plugin_registry_vec t))
    = List.length (plugin_registry_vec t) /\
  ((path, method) <> (introspection_path, "GET") ->
     httpd_verify_path introspection_path path method = false /\
     httpd_request introspection_path t path method = None /\
     httpd_request introspection_path started path method = None).
Proof.
  intros started.
  assert (Hok : httpd_verify_path introspection_path introspection_path "GET" = true).
  { unfold httpd_verify_path. now rewrite !String.eqb_refl. }
  assert (Hrec : map serialize (plugin_registry_vec started)
                 = map manifest_record
                       (filter (activates ld) (scanned_manifests dirs))).
  { unfold started. rewrite startup_registry, map_map.
    rewrite (map_ext _ serialize (serialize_finalized ld hst base)).
    apply records_of_scanned. }
  split; [| split; [| split; [exact Hok | split; [| split]]]].
  - unfold httpd_request, httpd_create_stream_response. now rewrite Hok, Hrec.
  - rewrite <- (length_map serialize), Hrec. apply length_map.
  - unfold httpd_request, httpd_create_stream_response. rewrite Hok.
    f_equal.
  - apply length_map.
  - intros Hne.
    assert (Hno : httpd_verify_path introspection_path path method = false).
    { unfold httpd_verify_path. apply andb_false_iff.
      destruct (String.eqb_spec method "GET") as [-> | Hm]; [| now left].
      destruct (String.eqb_spec path introspection_path) as [-> | Hp];
        [| now right].
      now elim Hne. }
    split; [exact Hno |]. unfold httpd_request. now rewrite Hno.
Qed.

(** ** The claims on the sample installation *)

Example sample_lifecycle_closes :
  filter is_any_dlclose
    (events_of (lifecycle sample_loader sample_host sample_base sample_preload)
               empty_world)
  = [ev_dlclose 12; ev_dlclose 11].
Proof. reflexivity. Qed.

Example sample_registry_after_activation :
  map plugin_name
    (plugin_registry_vec
       (eval (ActivatePlugins sample_loader (scanned sample_preload)) empty_world))
  = ["good"; "helper"].
Proof. reflexivity. Qed.

Lemma harness_slash_is_fatal_witness :
  contains_slash "../../bin/sh" = true /\
  (let m := ExternalHttpPluginHarness_new sample_host sample_base
              "helper" "../../bin/sh" in
   fatal_condition (exec m empty_world) = 1 /\
   In (fatal_message "../../bin/sh") (events_of m empty_world) /\
   count is_resolution_or_spawn (events_of m empty_world) = 0%nat).
Proof.
  split; [reflexivity |].
  apply (harness_slash_is_fatal sample_host sample_base
           "helper" "../../bin/sh" empty_world).
  reflexivity.
Defined.

Lemma harness_rejected_frame_witness :
  contains_slash "/bin/sh" = true /\
  (let m := ExternalHttpPluginHarness_new sample_host sample_base
              "helper" "/bin/sh" in
   eval m empty_world = sample_base /\
   external_binary (eval m empty_world) = external_binary sample_base /\
   ringbuf_handler (eval m empty_world) = ringbuf_handler sample_base /\
   ipc_remote (eval m empty_world) = ipc_remote sample_base /\
   events_of m empty_world = [fatal_message "/bin/sh"] /\
   count is_helper_setup (events_of m empty_world) = 0%nat).
Proof.
  split; [reflexivity |].
  apply (harness_rejected_frame sample_host sample_base
           "helper" "/bin/sh" empty_world).
  reflexivity.
Defined.

Lemma harness_default_search_path_witness :
  contains_slash "kismet_helper" = false /\
  fetch_opt_vec sample_host "helper_binary_path" = [] /\
  (let m := ExternalHttpPluginHarness_new sample_host sample_base
              "helper" "kismet_helper" in
   let install := expand_log_path sample_host "%B" EmptyString EmptyString 0 1 in
   In no_path_message (events_of m empty_world) /\
   filter is_add_path (events_of m empty_world) = [ev_add_path install] /\
   ipc_remote (eval m empty_world) = Some (mkIpc ipc_buffer_1M [install]) /\
   In (ev_launch_kis_binary "kismet_helper" []) (events_of m empty_world) /\
   count is_fatal_msg (events_of m empty_world) = 0%nat /\
   fatal_condition (exec m empty_world) = fatal_condition empty_world).
Proof.
  split; [reflexivity |]. split; [reflexivity |].
  apply (harness_default_search_path sample_host sample_base
           "helper" "kismet_helper" empty_world); reflexivity.
Defined.

Lemma harness_launch_failure_witness :
  contains_slash "kismet_helper" = false /\
  launch_result sample_host "kismet_helper" < 0 /\
  (let m := ExternalHttpPluginHarness_new sample_host sample_base
              "helper" "kismet_helper" in
   (exists before,
       events_of m empty_world =
         before ++ [ev_launch_kis_binary "kismet_helper" [];
                    launch_failed_message "helper" "kismet_helper"] /\
       count is_launch before = 0%nat) /\
   count is_launch (events_of m empty_world) = 1%nat /\
   count is_fatal_msg (events_of m empty_world) = 0%nat /\
   fatal_condition (exec m empty_world) = fatal_condition empty_world).
Proof.
  split; [reflexivity |]. split; [reflexivity |].
  apply (harness_launch_failure sample_host sample_base
           "helper" "kismet_helper" empty_world); reflexivity.
Defined.

Lemma version_rejected_closed_once_witness :
  null_handles sample_preload = true /\
  In sample_bad sample_preload /\
  version_rejected sample_loader sample_bad = true /\
  eval (activate_one sample_loader sample_bad) empty_world = None /\
  filter is_open_or_close
         (events_of (activate_one sample_loader sample_bad) empty_world)
    = [ev_dlopen "/plug/bad/bad.so" 12; ev_dlclose 12] /\
  owners 12 (plugin_registry_vec
               (eval (ActivatePlugins sample_loader (scanned sample_preload))
                     empty_world)) = [] /\
  count (is_dlclose 12)
        (events_of (lifecycle sample_loader sample_host sample_base sample_preload)
                   empty_world)
    = count (is_dlopen 12)
        (events_of (lifecycle sample_loader sample_host sample_base sample_preload)
                   empty_world) /\
  count (is_dlclose 12)
        (events_of (lifecycle sample_loader sample_host sample_base sample_preload)
                   empty_world) = 1%nat.
Proof.
  assert (Hn : null_handles sample_preload = true) by reflexivity.
  assert (Hx : In sample_bad sample_preload) by (right; left; reflexivity).
  assert (Hr : version_rejected sample_loader sample_bad = true) by reflexivity.
  split; [exact Hn |]. split; [exact Hx |]. split; [exact Hr |].
  pose proof (version_rejected_closed_once sample_loader sample_host sample_base
                sample_preload sample_bad empty_world Hn Hx Hr) as H.
  cbv zeta in H.
  destruct H as [Hturn [_ [Hown [_ [_ [_ [_ [Hbal Hone]]]]]]]].
  destruct (Hturn empty_world) as [Hnone [Hev _]].
  split; [exact Hnone |]. split; [exact Hev |]. split; [exact Hown |].
  split; [exact Hbal |]. apply Hone. reflexivity.
Defined.

Example sample_same_module_twice :
  let run := lifecycle sample_loader sample_host sample_base
                       [sample_bad; sample_bad] in
  count (is_dlopen 12) (events_of run empty_world) = 2%nat /\
  count (is_dlclose 12) (events_of run empty_world) = 2%nat.
Proof. split; reflexivity. Qed.



Lemma finalize_only_after_activation_witness :
  null_handles sample_preload = true /\
  (let act := ActivatePlugins sample_loader (scanned sample_preload) in
   let t1 := eval act empty_world in
   let w1 := exec act empty_world in
   let fin := FinalizePlugins sample_loader sample_host sample_base t1 in
   In (ev_finalize 11 (-1)) (events_of fin w1) /\
   (exists d a,
       In d (plugin_registry_vec t1) /\ dlfile d = 11 /\
       In (ev_activate 11 a) (events_of act empty_world) /\
       0 <= a /\
       (-1 < 0 ->
        In (ev_msg MSGFLAG_ERROR "finalize rejection: {}" [plugin_name d])
           (events_of fin w1))) /\
   filter is_finalize (events_of fin w1) = [ev_finalize 11 (-1)] /\
   map has_harness (plugin_registry_vec (eval fin w1)) = [false; true] /\
   fatal_condition (exec fin w1) = fatal_condition w1 /\
   map plugin_identity (plugin_registry_vec (eval fin w1))
     = map plugin_identity (plugin_registry_vec t1)).
Proof.
  split; [reflexivity |].
  intros act t1 w1 fin.
  assert (Hin : In (ev_finalize 11 (-1)) (events_of fin w1)) by (left; reflexivity).
  pose proof (finalize_only_after_activation sample_loader sample_host
                sample_base sample_preload empty_world eq_refl) as H.
  cbv zeta in H. destruct H as [H1 [_ [H3 [H4 [H5 [H6 _]]]]]].
  split; [exact Hin |]. split; [exact (H1 11 (-1) Hin) |].
  split; [exact H3 |]. split; [exact H4 |]. split; [exact H5 | exact H6].
Defined.

Lemma introspection_get_only_witness :
  ("/plugins/all_plugins.json", "POST") <> ("/plugins/all_plugins.json", "GET") /\
  (let started := eval (startup sample_loader sample_host sample_base sample_dirs)
                       empty_world in
   httpd_request "/plugins/all_plugins.json" started
                 "/plugins/all_plugins.json" "GET"
     = Some [ [ ("kismet.plugin.name", "good");
                ("kismet.plugin.description", "a native plugin");
                ("kismet.plugin.author", "kismet");
                ("kismet.plugin.version", "1.0");
                ("kismet.plugin.shared_object", "good.so");
                ("kismet.plugin.http_helper", EmptyString);
                ("kismet.plugin.dirname", "good");
                ("kismet.plugin.path", "/plug/good");
                ("kismet.plugin.jsmodule", "good_module") ];
              [ ("kismet.plugin.name", "helper");
                ("kismet.plugin.description", "a helper process");
                ("kismet.plugin.author", "kismet");
                ("kismet.plugin.version", "2.0");
                ("kismet.plugin.shared_object", EmptyString);
                ("kismet.plugin.http_helper", "kismet_helper");
                ("kismet.plugin.dirname", "helper");
                ("kismet.plugin.path", "/plug/helper");
                ("kismet.plugin.jsmodule", EmptyString) ] ] /\
   List.length (plugin_registry_vec started) = 2%nat /\
   httpd_verify_path "/plugins/all_plugins.json"
                     "/plugins/all_plugins.json" "POST" = false /\
   httpd_request "/plugins/all_plugins.json" started
                 "/plugins/all_plugins.json" "POST" = None).
Proof.
  assert (Hne : ("/plugins/all_plugins.json", "POST")
                <> ("/plugins/all_plugins.json", "GET")) by discriminate.
  split; [exact Hne |].
  pose proof (introspection_get_only sample_loader sample_host sample_base
                sample_dirs empty_world "/plugins/all_plugins.json"
                (mkTracker [] []) "/plugins/all_plugins.json" "POST")
    as H.
  cbv zeta in H. destruct H as [Hget [Hlen [_ [_ [_ Hother]]]]].
  destruct (Hother Hne) as [Hv [_ Hr]].
  intros started.
  split; [exact Hget |]. split; [exact Hlen |]. split; [exact Hv | exact Hr].
Defined.

(** * Further properties of the header *)

(** ** std::string::find *)

Lemma prefix_length : forall s1 s2,
  String.prefix s1 s2 = true -> (String.length s1 <= String.length s2)%nat.
Proof.
  induction s1 as [| a s1 IH]; intros s2 H; [cbn; lia |].
  destruct s2 as [| b s2]; [discriminate |].
  cbn [String.prefix] in H. destruct (ascii_dec a b); [| discriminate].
  cbn [String.length]. apply IH in H. lia.
Qed.

Lemma find_from_some needle : forall hay pos n,
  find_from needle hay pos = Some n ->
  (pos <= n)%nat /\
  substring (n - pos) (String.length needle) hay = needle /\
  (n - pos + String.length needle <= String.length hay)%nat /\
  (forall m, (m < n - pos)%nat ->
             substring m (String.length needle) hay <> needle).
Proof.
  induction hay as [| c rest IH]; intros pos n H.
  - cbn [find_from] in H.
    destruct (String.prefix needle EmptyString) eqn:Hp; [| discriminate].
    injection H as <-. rewrite Nat.sub_diag.
    split; [lia |]. split; [now apply prefix_correct |].
    split; [apply prefix_length in Hp; lia |]. intros m Hm. lia.
  - cbn [find_from] in H.
    destruct (String.prefix needle (String c rest)) eqn:Hp.
    + injection H as <-. rewrite Nat.sub_diag.
      split; [lia |]. split; [now apply prefix_correct |].
      split; [apply prefix_length in Hp; lia |]. intros m Hm. lia.
    + destruct (IH (S pos) n H) as [Hle [Hsub [Hfit Hmin]]].
      replace (n - pos)%nat with (S (n - S pos)) by lia.
      split; [lia |]. split; [exact Hsub |].
      split; [cbn [String.length]; lia |].
      intros [| m] Hm.
      * intros Heq. apply prefix_correct in Heq. congruence.
      * cbn [substring]. apply Hmin. lia.
Qed.

Lemma find_from_none needle : forall hay pos,
  find_from needle hay pos = None ->
  forall m, substring m (String.length needle) hay <> needle.
Proof.
  induction hay as [| c rest IH]; intros pos H m.
  - cbn [find_from] in H.
    destruct (String.prefix needle EmptyString) eqn:Hp; [discriminate |].
    assert (Hz : substring 0 (String.length needle) EmptyString <> needle).
    { intros Heq. apply prefix_correct in Heq. congruence. }
    destruct m as [| m]; [exact Hz |].
    destruct needle; [now elim Hz | cbn; discriminate].
  - cbn [find_from] in H.
    destruct (String.prefix needle (String c rest)) eqn:Hp; [discriminate |].
    destruct m as [| m].
    + intros Heq. apply prefix_correct in Heq. congruence.
    + cbn [substring]. eapply IH. eassumption.
Qed.

(** X1. [hay.find(needle)] answers the first position at which [needle]
    occurs in [hay]: the occurrence lies within [hay], no smaller position
    carries one, and the answer is npos only when no position does. *)
Theorem string_find_first_occurrence hay needle :
  match string_find hay needle with
  | Some n =>
      substring n (String.length needle) hay = needle /\
      (n + String.length needle <= String.length hay)%nat /\
      (forall m, (m < n)%nat ->
                 substring m (String.length needle) hay <> needle)
  | None => forall m, substring m (String.length needle) hay <> needle
  end.
Proof.
  unfold string_find.
  destruct (find_from needle hay 0) as [n |] eqn:H.
  - destruct (find_from_some needle hay 0%nat n H) as [_ [Hs [Hf Hm]]].
    rewrite Nat.sub_0_r in *. auto.
  - eapply find_from_none. eassumption.
Qed.

(** ** More on the harness constructor *)

Lemma added_paths_app l1 l2 :
  added_paths (l1 ++ l2) = added_paths l1 ++ added_paths l2.
Proof.
  induction l1 as [| e l1 IH]; [reflexivity |].
  destruct e; cbn [added_paths app]; rewrite IH; reflexivity.
Qed.

Lemma added_paths_map l : added_paths (map ev_add_path l) = l.
Proof. induction l as [| p l IH]; cbn; [| rewrite IH]; reflexivity. Qed.

Lemma count_added_paths l :
  count is_add_path (map ev_add_path l) = List.length l.
Proof. unfold count. now rewrite filter_add_paths, length_map. Qed.

Lemma added_paths_accepted hst plugin_name binary :
  added_paths (accepted_events hst plugin_name binary) = search_paths hst.
Proof.
  unfold accepted_events. rewrite !added_paths_app, added_paths_map.
  destruct (fetch_opt_vec hst "helper_binary_path");
    destruct (launch_result hst binary <? 0); cbn; now rewrite app_nil_r.
Qed.

(** X2. For a binary name without '/', the harness keeps the name, a ring
    buffer of 1048576 bytes each way with the harness attached as its
    reader, and a remote-process object built on that same buffer whose
    search paths are the paths handed to [add_path], in the order of the
    calls; the list is never empty. *)
Theorem harness_accepted_state hst base plugin_name binary w :
  contains_slash binary = false ->
  let m := ExternalHttpPluginHarness_new hst base plugin_name binary in
  external_binary (eval m w) = binary /\
  ringbuf_handler (eval m w) = Some (mkBuffer 1048576 1048576 true) /\
  exists ipc,
    ipc_remote (eval m w) = Some ipc /\
    ipc_buffer ipc = mkBuffer 1048576 1048576 true /\
    path_vec ipc = added_paths (events_of m w) /\
    path_vec ipc <> [].
Proof.
  intros Hs m.
  pose proof (harness_accepted hst base plugin_name binary w Hs) as Hr.
  fold m in Hr. rewrite (runs_eval _ _ _ _ _ Hr), (runs_events _ _ _ _ _ Hr).
  split; [reflexivity |]. split; [reflexivity |].
  eexists. split; [reflexivity |]. split; [reflexivity |].
  cbn [path_vec]. rewrite added_paths_accepted. split; [reflexivity |].
  unfold search_paths.
  destruct (fetch_opt_vec hst "helper_binary_path"); discriminate.
Qed.

(** X3. With a configured path list that is not empty, [add_path] is called
    once per entry, in configuration order, each entry expanded with
    [expand_log_path(p, "", "", 0, 1)]; the message about a missing list is
    not logged. *)
Theorem harness_configured_paths hst base plugin_name binary w :
  contains_slash binary = false ->
  fetch_opt_vec hst "helper_binary_path" <> [] ->
  let m := ExternalHttpPluginHarness_new hst base plugin_name binary in
  added_paths (events_of m w)
    = map (expand_helper_path hst) (fetch_opt_vec hst "helper_binary_path") /\
  count is_add_path (events_of m w)
    = List.length (fetch_opt_vec hst "helper_binary_path") /\
  ~ In no_path_message (events_of m w).
Proof.
  intros Hs Hf m.
  pose proof (harness_accepted hst base plugin_name binary w Hs) as Hr.
  fold m in Hr. rewrite (runs_events _ _ _ _ _ Hr).
  rewrite added_paths_accepted.
  unfold accepted_events, search_paths, expand_helper_path.
  destruct (fetch_opt_vec hst "helper_binary_path") as [| p ps]; [now elim Hf |].
  split; [reflexivity |]. split.
  - rewrite !count_app, count_added_paths, !length_map.
    destruct (launch_result hst binary <? 0); cbn; lia.
  - rewrite !in_app_iff. intros [H | [H | [H | [H | H]]]].
    + cbn in H. repeat (destruct H as [H | H]; [discriminate |]). destruct H.
    + destruct H.
    + apply in_map_iff in H as [s [H _]]. discriminate.
    + destruct H as [H | []]. discriminate.
    + destruct (launch_result hst binary <? 0); cbn in H;
        [destruct H as [H | []]; discriminate | destruct H].
Qed.

(** X4. When the launch answers a non-negative value the launch is the last
    call of the constructor: it is made once, no message follows it, and the
    fatal flag is left alone. *)
Theorem harness_launch_success hst base plugin_name binary w :
  contains_slash binary = false ->
  0 <= launch_result hst binary ->
  let m := ExternalHttpPluginHarness_new hst base plugin_name binary in
  (exists before,
      events_of m w = before ++ [ev_launch_kis_binary binary []] /\
      count is_launch before = 0%nat) /\
  count is_launch_failed (events_of m w) = 0%nat /\
  count is_fatal_msg (events_of m w) = 0%nat /\
  fatal_condition (exec m w) = fatal_condition w.
Proof.
  intros Hs Hl m.
  pose proof (harness_accepted hst base plugin_name binary w Hs) as Hr.
  fold m in Hr. rewrite (runs_events _ _ _ _ _ Hr), (runs_flag _ _ _ _ _ Hr).
  apply Z.ltb_ge in Hl.
  split; [| split; [| split; [apply accepted_no_fatal | reflexivity]]].
  - unfold accepted_events. rewrite Hl.
    exists ([ ev_new_buffer_handler (1024 * 1024) (1024 * 1024);
              ev_set_read_buffer_interface;
              ev_new_ipc_remote;
              ev_fetch_opt_vec "helper_binary_path" ]
            ++ (match fetch_opt_vec hst "helper_binary_path" with
                | [] => [no_path_message]
                | _ => []
                end)
            ++ map ev_add_path (search_paths hst)).
    split.
    + rewrite <- !app_assoc, app_nil_r. reflexivity.
    + rewrite !count_app. rewrite count_add_paths by reflexivity.
      now destruct (fetch_opt_vec hst "helper_binary_path").
  - unfold accepted_events. rewrite Hl, !count_app.
    rewrite count_add_paths by reflexivity.
    now destruct (fetch_opt_vec hst "helper_binary_path").
Qed.

(** X5. The constructor raises the fatal condition for the names with a '/'
    and for no other: the flag afterwards is 1 for such a name and what it
    was before otherwise, so no construction clears a flag that was raised.
    The helper is launched, once and under the very name given, exactly for
    the names without a '/'; the empty name is one of them. *)
Theorem harness_fatal_iff_slash hst base plugin_name binary w :
  let m := ExternalHttpPluginHarness_new hst base plugin_name binary in
  fatal_condition (exec m w)
    = (if contains_slash binary then 1 else fatal_condition w) /\
  count is_fatal_msg (events_of m w) = indicator (contains_slash binary) /\
  filter is_launch (events_of m w)
    = (if contains_slash binary then [] else [ev_launch_kis_binary binary []]) /\
  In (ev_launch_kis_binary EmptyString [])
     (events_of (ExternalHttpPluginHarness_new hst base plugin_name EmptyString) w).
Proof.
  intros m. split; [| split; [| split]].
  - destruct (contains_slash binary) eqn:Hs.
    + exact (runs_flag _ _ _ _ _ (harness_rejected hst base plugin_name binary w Hs)).
    + exact (runs_flag _ _ _ _ _ (harness_accepted hst base plugin_name binary w Hs)).
  - destruct (contains_slash binary) eqn:Hs.
    + unfold m.
      now rewrite (runs_events _ _ _ _ _
                     (harness_rejected hst base plugin_name binary w Hs)).
    + unfold m.
      rewrite (runs_events _ _ _ _ _
                 (harness_accepted hst base plugin_name binary w Hs)).
      apply accepted_no_fatal.
  - destruct (contains_slash binary) eqn:Hs.
    + unfold m.
      now rewrite (runs_events _ _ _ _ _
                     (harness_rejected hst base plugin_name binary w Hs)).
    + unfold m.
      rewrite (runs_events _ _ _ _ _
                 (harness_accepted hst base plugin_name binary w Hs)).
      unfold accepted_events. rewrite !filter_app.
      replace (filter is_launch (map ev_add_path (search_paths hst)))
        with (@nil event)
        by (induction (search_paths hst); [reflexivity | assumption]).
      destruct (fetch_opt_vec hst "helper_binary_path");
        destruct (launch_result hst binary <? 0); reflexivity.
  - rewrite (runs_events _ _ _ _ _
               (harness_accepted hst base plugin_name EmptyString w eq_refl)).
    unfold accepted_events. rewrite !in_app_iff.
    right. right. right. left. now left.
Qed.

(** X6. The plugin name reaches nothing but the message about a failed
    launch: two constructions that differ in the plugin name only build the
    same harness, leave the same flag, and make the same calls once that
    message is set aside. *)
Theorem harness_plugin_name_only_logged hst base name1 name2 binary w :
  let m1 := ExternalHttpPluginHarness_new hst base name1 binary in
  let m2 := ExternalHttpPluginHarness_new hst base name2 binary in
  eval m1 w = eval m2 w /\
  fatal_condition (exec m1 w) = fatal_condition (exec m2 w) /\
  filter (fun e => negb (is_launch_failed e)) (events_of m1 w)
    = filter (fun e => negb (is_launch_failed e)) (events_of m2 w).
Proof.
  intros m1 m2. unfold m1, m2.
  destruct (contains_slash binary) eqn:Hs.
  - pose proof (harness_rejected hst base name1 binary w Hs) as H1.
    pose proof (harness_rejected hst base name2 binary w Hs) as H2.
    rewrite (runs_eval _ _ _ _ _ H1), (runs_eval _ _ _ _ _ H2),
      (runs_flag _ _ _ _ _ H1), (runs_flag _ _ _ _ _ H2),
      (runs_events _ _ _ _ _ H1), (runs_events _ _ _ _ _ H2).
    repeat split.
  - pose proof (harness_accepted hst base name1 binary w Hs) as H1.
    pose proof (harness_accepted hst base name2 binary w Hs) as H2.
    rewrite (runs_eval _ _ _ _ _ H1), (runs_eval _ _ _ _ _ H2),
      (runs_flag _ _ _ _ _ H1), (runs_flag _ _ _ _ _ H2),
      (runs_events _ _ _ _ _ H1), (runs_events _ _ _ _ _ H2).
    repeat split.
    unfold accepted_events. rewrite !filter_app. do 4 f_equal.
    now destruct (launch_result hst binary <? 0).
Qed.

(** ** More on the descriptor *)

(** X7. The handle a descriptor holds is the argument of the latest
    [set_plugin_dlfile] call made on it, and what it held before when there
    was none; no setter, of a string field or of the handle, touches the
    harness. *)
Theorem descriptor_last_handle_wins ops d :
  get_plugin_dlfile (apply_setters ops d) = last_set_dlfile ops (dlfile d) /\
  external_http (apply_setters ops d) = external_http d.
Proof.
  split; [apply apply_setters_last_dlfile | apply apply_setters_external_http].
Qed.

(** X8. A descriptor built by a constructor and then written to by any
    sequence of setters closes, when it is destroyed, the handle of the
    latest [set_plugin_dlfile] if that is not null, and makes no other call:
    a handle that a later [set_plugin_dlfile] overwrote is never closed by
    this descriptor. *)
Theorem destructor_closes_last_handle id e ops h w :
  let d := apply_setters ops (construct id e) in
  let latest := last_set_dlfile ops NULL in
  events_of (PluginRegistrationData_delete d) w
    = (if latest =? NULL then [] else [ev_dlclose latest]) /\
  count (is_dlclose h) (events_of (PluginRegistrationData_delete d) w)
    = indicator (negb (h =? NULL) && (latest =? h)) /\
  fatal_condition (exec (PluginRegistrationData_delete d) w) = fatal_condition w.
Proof.
  intros d latest.
  pose proof (apply_setters_last_dlfile ops (construct id e)) as Hh.
  pose proof (apply_setters_external_http ops (construct id e)) as He.
  cbn [construct dlfile external_http] in Hh, He.
  fold d in Hh, He. fold latest in Hh.
  rewrite delete_events_of, (runs_flag _ _ _ _ _ (delete_runs d w)).
  split; [| split; [| reflexivity]].
  - unfold delete_events. rewrite Hh, He.
    destruct (latest =? NULL); reflexivity.
  - rewrite count_dlclose_delete. unfold owns. now rewrite Hh.
Qed.

(** X9. Destroying a clone makes no call at all, whatever the cloned
    descriptor holds: a descriptor destroyed together with its clones makes
    exactly the calls of its own destructor, so its module is not closed a
    second time. *)
Theorem clone_destroy_no_double_close d in_id h w :
  events_of (PluginRegistrationData_delete (clone_type d)) w = [] /\
  events_of (PluginRegistrationData_delete (clone_type_id d in_id)) w = [] /\
  events_of (for_each [d; clone_type d; clone_type_id d in_id]
                      PluginRegistrationData_delete) w
    = events_of (PluginRegistrationData_delete d) w /\
  count (is_dlclose h)
        (events_of (for_each [d; clone_type d; clone_type_id d in_id]
                             PluginRegistrationData_delete) w)
    = indicator (owns h d).
Proof.
  rewrite for_each_delete_events, !delete_events_of.
  cbn [flat_map]. 
  change (delete_events (clone_type d)) with (@nil event).
  change (delete_events (clone_type_id d in_id)) with (@nil event).
  rewrite !app_nil_r. repeat split. apply count_dlclose_delete.
Qed.

Lemma count_release_delete d :
  count is_release_harness (delete_events d) = indicator (has_harness d).
Proof.
  unfold delete_events, has_harness. rewrite count_app.
  destruct (negb (dlfile d =? NULL)); destruct (external_http d); reflexivity.
Qed.

(** X10. Destroying the descriptors of a list, in order, closes a handle
    once for every descriptor of the list that owns it, never calls
    [dlclose] on the null handle, releases one harness per descriptor that
    has one, and leaves the fatal flag alone.  The class does not keep two
    descriptors from holding one handle: when [set_plugin_dlfile] gave both
    the same handle, it is closed twice. *)
Theorem destroy_all_closes_per_owner l d1 d2 h w :
  let m := for_each l PluginRegistrationData_delete in
  count (is_dlclose h) (events_of m w) = List.length (owners h l) /\
  count (is_dlclose NULL) (events_of m w) = 0%nat /\
  count is_release_harness (events_of m w) = List.length (filter has_harness l) /\
  fatal_condition (exec m w) = fatal_condition w /\
  count (is_dlclose h)
        (events_of (for_each [apply_setter (set_plugin_dlfile h) d1;
                              apply_setter (set_plugin_dlfile h) d2]
                             PluginRegistrationData_delete) w)
    = (if h =? NULL then 0%nat else 2%nat).
Proof.
  intros m. unfold m.
  rewrite !for_each_delete_events,
    (runs_flag _ _ _ _ _ (for_each_delete_runs l w)).
  split; [apply count_dlclose_deletes |].
  split.
  { rewrite count_dlclose_deletes. unfold owners.
    rewrite (filter_length_ext _ (fun _ => false)), filter_none; [reflexivity |].
    intros z _. unfold owns. now rewrite Z.eqb_refl. }
  split.
  { apply count_flat_map. intros x _. apply count_release_delete. }
  split; [reflexivity |].
  rewrite count_dlclose_deletes. unfold owners, owns. cbn [filter].
  destruct d1, d2. cbn [apply_setter dlfile]. rewrite Z.eqb_refl.
  destruct (h =? NULL); reflexivity.
Qed.

(** X11. [register_fields] binds every one of the nine string members, each
    under a name of its own: the names are pairwise distinct, two
    descriptors agree on every registered field exactly when they agree on
    the nine members, and a name that is not registered is not found in a
    serialized descriptor. *)
Theorem register_fields_cover_members d1 d2 name :
  NoDup (map fst register_fields) /\
  ((forall f, In f register_fields -> snd f d1 = snd f d2)
   <-> string_members d1 = string_members d2) /\
  (existsb (String.eqb name) (map fst register_fields) = false ->
   map_find name (serialize d1) = None).
Proof.
  split; [| split].
  - cbn. repeat constructor; cbn; intuition discriminate.
  - unfold string_members. split.
    + intros H.
      pose proof (H ("kismet.plugin.name", plugin_name)) as H1.
      pose proof (H ("kismet.plugin.description", plugin_description)) as H2.
      pose proof (H ("kismet.plugin.author", plugin_author)) as H3.
      pose proof (H ("kismet.plugin.version", plugin_version)) as H4.
      pose proof (H ("kismet.plugin.shared_object", plugin_so)) as H5.
      pose proof (H ("kismet.plugin.http_helper", plugin_http_external)) as H6.
      pose proof (H ("kismet.plugin.dirname", plugin_dirname)) as H7.
      pose proof (H ("kismet.plugin.path", plugin_path)) as H8.
      pose proof (H ("kismet.plugin.jsmodule", plugin_js)) as H9.
      cbn [snd] in *. unfold register_fields in *.
      rewrite H1, H2, H3, H4, H5, H6, H7, H8, H9; cbn; tauto.
    + intros [= E1 E2 E3 E4 E5 E6 E7 E8 E9] f Hf. cbn in Hf.
      repeat (destruct Hf as [<- | Hf]; [assumption |]). destruct Hf.
  - rewrite serialize_fields. cbn [map fst register_fields existsb map_find].
    rewrite !orb_false_iff. intros [N1 [N2 [N3 [N4 [N5 [N6 [N7 [N8 [N9 _]]]]]]]]].
    rewrite (String.eqb_sym _ name), N1, (String.eqb_sym _ name), N2,
      (String.eqb_sym _ name), N3, (String.eqb_sym _ name), N4,
      (String.eqb_sym _ name), N5, (String.eqb_sym _ name), N6,
      (String.eqb_sym _ name), N7, (String.eqb_sym _ name), N8,
      (String.eqb_sym _ name), N9.
    reflexivity.
Qed.

(** ** The further properties on the sample installation *)

Lemma harness_accepted_state_witness :
  contains_slash "kismet_helper" = false /\
  (let m := ExternalHttpPluginHarness_new sample_host_configured sample_base
              "helper" "kismet_helper" in
   external_binary (eval m empty_world) = "kismet_helper" /\
   ringbuf_handler (eval m empty_world) = Some (mkBuffer 1048576 1048576 true) /\
   exists ipc,
     ipc_remote (eval m empty_world) = Some ipc /\
     ipc_buffer ipc = mkBuffer 1048576 1048576 true /\
     path_vec ipc = added_paths (events_of m empty_world) /\
     path_vec ipc <> []).
Proof.
  split; [reflexivity |].
  apply (harness_accepted_state sample_host_configured sample_base
           "helper" "kismet_helper" empty_world).
  reflexivity.
Defined.

Lemma harness_configured_paths_witness :
  contains_slash "kismet_helper" = false /\
  fetch_opt_vec sample_host_configured "helper_binary_path" <> [] /\
  (let m := ExternalHttpPluginHarness_new sample_host_configured sample_base
              "helper" "kismet_helper" in
   added_paths (events_of m empty_world)
     = ["/opt/kismet/bin"; "/usr/local/bin/helpers"] /\
   count is_add_path (events_of m empty_world) = 2%nat /\
   ~ In no_path_message (events_of m empty_world)).
Proof.
  split; [reflexivity |]. split; [discriminate |].
  apply (harness_configured_paths sample_host_configured sample_base
           "helper" "kismet_helper" empty_world).
  - reflexivity.
  - discriminate.
Defined.

Lemma harness_launch_success_witness :
  contains_slash "kismet_helper" = false /\
  0 <= launch_result sample_host_configured "kismet_helper" /\
  (let m := ExternalHttpPluginHarness_new sample_host_configured sample_base
              "helper" "kismet_helper" in
   (exists before,
       events_of m empty_world
         = before ++ [ev_launch_kis_binary "kismet_helper" []] /\
       count is_launch before = 0%nat) /\
   count is_launch_failed (events_of m empty_world) = 0%nat /\
   count is_fatal_msg (events_of m empty_world) = 0%nat /\
   fatal_condition (exec m empty_world) = fatal_condition empty_world).
Proof.
  split; [reflexivity |]. split; [discriminate |].
  apply (harness_launch_success sample_host_configured sample_base
           "helper" "kismet_helper" empty_world).
  - reflexivity.
  - discriminate.
Defined.

Lemma register_fields_cover_members_witness :
  existsb (String.eqb "kismet.plugin.dlfile") (map fst register_fields) = false /\
  map_find "kismet.plugin.dlfile" (serialize sample_good) = None.
Proof.
  split; [reflexivity |].
  apply (register_fields_cover_members sample_good sample_bad
           "kismet.plugin.dlfile").
  reflexivity.
Defined.

Example sample_overwritten_handle_leaks :
  events_of (PluginRegistrationData_delete
               (apply_setters [set_plugin_dlfile 5; set_plugin_name "p";
                               set_plugin_dlfile 9]
                              PluginRegistrationData_new)) empty_world
  = [ev_dlclose 9].
Proof. reflexivity. Qed.

Example sample_find_positions :
  string_find "a/b/c" "/" = Some 1%nat /\
  string_find "kismet_helper" "/" = None /\
  string_find "abc" EmptyString = Some 0%nat /\
  string_find "ab" "abc" = None.
Proof. repeat split. Qed.
